(** * alarm.c: the patchwatcher test supervisor

    A shallow embedding of [patchwatcher/alarm.c], the wrapper that runs
    one Wine conformance test under a timeout, with a whitelist of tests
    that may run in parallel, an execution lock and a video-mode check for
    the others, and capture and replay of the test's output under
    "make -jN".

    C strings are [string]s (the bytes before the terminating NUL), [int]
    values are [Z], the command line is a [list string].  What the process
    does to the outside world is a trace of [Event]s; what the outside
    world answers (results of system calls, the child's fate, the bytes
    that happen to lie in an uninitialised buffer) is a [World] record. *)

From Stdlib Require Import ZArith List Bool Ascii String Lia.
From Stdlib Require Import DecimalString DecimalPos.
Import ListNotations.

Open Scope string_scope.
Open Scope Z_scope.

(** ** The C library functions the program calls *)

Module LibC.

(** [strstr(hay, needle)]: the suffix of [hay] that starts at the first
    occurrence of [needle], [None] for the null pointer. *)
Fixpoint strstr (hay needle : string) : option string :=
  if String.prefix needle hay then Some hay
  else match hay with
       | EmptyString => None
       | String _ hay' => strstr hay' needle
       end.

(** [strrchr(s, c)] for a character [c] other than NUL: the offset of the
    last occurrence of [c] in [s], [None] for the null pointer. *)
Fixpoint strrchr (s : string) (c : ascii) : option nat :=
  match s with
  | EmptyString => None
  | String a s' =>
      match strrchr s' c with
      | Some i => Some (S i)
      | None => if Ascii.eqb a c then Some O else None
      end
  end.

Definition byte_of (a : ascii) : Z := Z.of_N (N_of_ascii a).

(** [strcmp(a, b)]: the difference of the first two bytes that differ,
    compared as [unsigned char]; the end of a string counts as byte 0. *)
Fixpoint strcmp (a b : string) : Z :=
  match a, b with
  | EmptyString, EmptyString => 0
  | EmptyString, String y _ => 0 - byte_of y
  | String x _, EmptyString => byte_of x
  | String x a', String y b' =>
      if Ascii.eqb x y then strcmp a' b' else byte_of x - byte_of y
  end.

(** The result of the binary search loop: the index of the element found,
    the null pointer, or the loop cut short by the bound on its
    iterations (which [bsearch_total] shows never happens). *)
Inductive found : Type :=
| Found (idx : nat)
| NotFound
| Cut.

(** The loop of [bsearch]: [l] and [u] delimit the part of [base] still to
    search, the middle element is compared with the key.
<<
    while (l < u) {
        idx = (l + u) / 2;
        c = compar(key, base + idx * size);
        if (c < 0) u = idx; else if (c > 0) l = idx + 1; else return p;
    }
    return NULL;
>> *)
Fixpoint bsearch_loop {A K : Type} (compar : K -> A -> Z) (key : K)
    (base : list A) (iter : nat) (l u : nat) : found :=
  if (l <? u)%nat then
    match iter with
    | O => Cut
    | S iter' =>
        let idx := ((l + u) / 2)%nat in
        match nth_error base idx with
        | None => NotFound
        | Some p =>
            let c := compar key p in
            if c <? 0 then bsearch_loop compar key base iter' l idx
            else if c >? 0 then bsearch_loop compar key base iter' (S idx) u
            else Found idx
        end
    end
  else NotFound.

Definition bsearch {A K : Type} (key : K) (base : list A) (nmemb : nat)
    (compar : K -> A -> Z) : found :=
  bsearch_loop compar key base nmemb 0%nat nmemb.

Definition isspace (a : ascii) : bool :=
  let n := byte_of a in (n =? 32) || ((9 <=? n) && (n <=? 13)).

Definition isdigit (a : ascii) : bool :=
  let n := byte_of a in (48 <=? n) && (n <=? 57).

Fixpoint skip_spaces (s : string) : string :=
  match s with
  | String a s' => if isspace a then skip_spaces s' else s
  | EmptyString => s
  end.

(** The value of the leading decimal digits of [s], after [acc]. *)
Fixpoint digits (s : string) (acc : Z) : Z :=
  match s with
  | String a s' =>
      if isdigit a then digits s' (10 * acc + (byte_of a - 48)) else acc
  | EmptyString => acc
  end.

Definition LONG_MAX : Z := 9223372036854775807.
Definition LONG_MIN : Z := - 9223372036854775808.

(** [strtol(s, NULL, 10)]: white space, an optional sign, digits; 0 when
    there is no digit, the nearest bound on overflow. *)
Definition strtol (s : string) : Z :=
  let v :=
    match skip_spaces s with
    | String "-" s' => - digits s' 0
    | String "+" s' => digits s' 0
    | s' => digits s' 0
    end in
  Z.max LONG_MIN (Z.min LONG_MAX v).

(** Conversion to [int]: the value modulo 2^32, in the signed range. *)
Definition to_int (z : Z) : Z := (z + 2147483648) mod 4294967296 - 2147483648.

(** [atoi(s)] is [(int) strtol(s, NULL, 10)]. *)
Definition atoi (s : string) : Z := to_int (strtol s).

(** [fgets(buf, size, stream)] on a stream whose remaining content is
    [content]: the first line with its newline, at most [size - 1] bytes;
    [None] (the null pointer) at end of file. *)
Fixpoint first_line (content : string) (room : nat) : string :=
  match room, content with
  | S room', String a rest =>
      if Ascii.eqb a "010" then String a EmptyString
      else String a (first_line rest room')
  | _, _ => EmptyString
  end.

Definition fgets (size : nat) (content : string) : option string :=
  match content with
  | EmptyString => None
  | _ => Some (first_line content (size - 1))
  end.

(** The conversion [%d] of [printf]. *)
Definition fmt_d (z : Z) : string := NilZero.string_of_int (Z.to_int z).

(** <sys/wait.h>: the status that [wait] stores. *)
Definition WTERMSIG (status : Z) : Z := Z.land status 127.
Definition WIFEXITED (status : Z) : bool := WTERMSIG status =? 0.
Definition WEXITSTATUS (status : Z) : Z :=
  Z.shiftr (Z.land status 65280) 8.
Definition W_EXITCODE (ret sig : Z) : Z := Z.lor (Z.shiftl ret 8) sig.

Definition SIGKILL : Z := 9.
Definition SIGALRM : Z := 14.

End LibC.

Import LibC.

(** ** Extraction of the test identity *)

(** The loop that looks for the launcher,
<<
    for (argi=1; argi < argc; argi++)
        if (strstr(argv[argi], "wine"))
            break;
>>
    run on the arguments from index [argi] on: the value of [argi] when
    the loop is left. *)
Fixpoint scan_wine (rest : list string) (argi : nat) : nat :=
  match rest with
  | [] => argi
  | a :: rest' =>
      match strstr a "wine" with
      | Some _ => argi
      | None => scan_wine rest' (S argi)
      end
  end.

(** [getTestID(argc, argv, buf)], with [argc] the length of [argv]: the
    string written to [buf] when the function returns 1, [None] when it
    returns 0 (it has then written nothing to [buf]). *)
Definition getTestID (argv : list string) : option string :=
  let argc := List.length argv in
  let argi := scan_wine (skipn 1 argv) 1 in
  if (argc <=? argi + 2)%nat then None
  else
    match nth_error argv (argi + 1) with
    | None => None
    | Some module =>
        match strrchr module "_" with
        | None => None
        | Some module_end =>
            match nth_error argv (argi + 2) with
            | None => None
            | Some file =>
                match strrchr file "." with
                | None => None
                | Some file_end =>
                    Some (substring 0 module_end module ++ ":" ++
                          substring 0 file_end file)
                end
            end
        end
    end.

(** ** The whitelist *)

Definition whitelist : list string :=
  [
    "advapi32:cred"; "advapi32:crypt"; "advapi32:crypt_lmhash";
    "advapi32:crypt_md4"; "advapi32:crypt_md5"; "advapi32:crypt_sha";
    "advapi32:lsa"; "advapi32:registry"; "advapi32:security";
    "advapi32:service"; "advpack:advpack"; "advpack:files"; "comctl32:misc";
    "comctl32:mru"; "comdlg32:printdlg"; "credui:credui"; "crypt32:base64";
    "crypt32:cert"; "crypt32:chain"; "crypt32:crl"; "crypt32:ctl";
    "crypt32:encode"; "crypt32:main"; "crypt32:message"; "crypt32:oid";
    "crypt32:protectdata"; "crypt32:sip"; "crypt32:store"; "crypt32:str";
    "cryptnet:cryptnet"; "cryptui:cryptui"; "d3drm:vector"; "d3dx8:math";
    "d3dx9_36:math"; "d3dxof:d3dxof"; "dnsapi:name"; "dnsapi:record";
    "dplayx:dplayx"; "fusion:asmcache"; "fusion:asmname"; "fusion:fusion";
    "gdi32:bitmap"; "gdi32:brush"; "gdi32:gdiobj"; "gdi32:generated";
    "gdi32:icm"; "gdi32:mapping"; "gdi32:palette"; "gdi32:path";
    "gdi32:pen"; "gdiplus:brush"; "gdiplus:customlinecap";
    "gdiplus:graphics"; "gdiplus:graphicspath"; "gdiplus:matrix";
    "gdiplus:pathiterator"; "gdiplus:pen"; "gdiplus:region";
    "gdiplus:stringformat"; "inetmib1:main"; "iphlpapi:iphlpapi";
    "kernel32:actctx"; "kernel32:alloc"; "kernel32:atom"; "kernel32:change";
    "kernel32:codepage"; "kernel32:comm"; "kernel32:debugger";
    "kernel32:directory"; "kernel32:drive"; "kernel32:environ";
    "kernel32:file"; "kernel32:format_msg"; "kernel32:generated";
    "kernel32:heap"; "kernel32:loader"; "kernel32:locale";
    "kernel32:mailslot"; "kernel32:module"; "kernel32:path";
    "kernel32:pipe"; "kernel32:profile"; "kernel32:resource";
    "kernel32:sync"; "kernel32:time"; "kernel32:timer"; "kernel32:toolhelp";
    "kernel32:version"; "kernel32:virtual"; "kernel32:volume";
    "localspl:localmon"; "localui:localui"; "lz32:lzexpand_main";
    "mapi32:imalloc"; "mapi32:prop"; "mapi32:util"; "msacm32:msacm";
    "mscms:profile"; "msvcrt:cpp"; "msvcrt:data"; "msvcrtd:debug";
    "msvcrt:dir"; "msvcrt:environ"; "msvcrt:file"; "msvcrt:headers";
    "msvcrt:heap"; "msvcrt:printf"; "msvcrt:scanf"; "msvcrt:string";
    "msvcrt:time"; "netapi32:access"; "netapi32:apibuf"; "netapi32:ds";
    "netapi32:wksta"; "ntdll:atom"; "ntdll:change"; "ntdll:env";
    "ntdll:error"; "ntdll:exception"; "ntdll:file"; "ntdll:generated";
    "ntdll:info"; "ntdll:large_int"; "ntdll:om"; "ntdll:path"; "ntdll:port";
    "ntdll:reg"; "ntdll:rtl"; "ntdll:rtlbitmap"; "ntdll:rtlstr";
    "ntdll:string"; "ntdll:time"; "ntdsapi:ntdsapi"; "ntprint:ntprint";
    "odbccp32:misc"; "ole32:errorinfo"; "ole32:hglobalstream";
    "ole32:propvariant"; "ole32:stg_prop"; "ole32:storage32"; "oleacc:main";
    "oleaut32:olefont"; "oleaut32:olepicture"; "oleaut32:safearray";
    "oleaut32:typelib"; "oleaut32:varformat"; "oleaut32:vartest";
    "oleaut32:vartype"; "pdh:pdh"; "psapi:psapi_main"; "rasapi32:rasapi";
    "rpcrt4:generated"; "rpcrt4:ndr_marshall"; "rpcrt4:rpc_async";
    "rpcrt4:server"; "rsaenh:rsaenh"; "schannel:main"; "secur32:main";
    "secur32:ntlm"; "secur32:schannel"; "secur32:secur32";
    "serialui:confdlg"; "setupapi:devinst"; "setupapi:parser";
    "setupapi:query"; "setupapi:stringtable"; "shdocvw:shdocvw";
    "shell32:generated"; "shell32:shfldr_special"; "shell32:shlfileop";
    "shlwapi:assoc"; "shlwapi:clist"; "shlwapi:clsid"; "shlwapi:generated";
    "shlwapi:istream"; "shlwapi:ordinal"; "shlwapi:path"; "shlwapi:url";
    "snmpapi:util"; "spoolss:spoolss"; "urlmon:generated";
    "user32:generated"; "user32:resource"; "user32:wsprintf";
    "userenv:userenv"; "version:info"; "version:install";
    "winhttp:notification"; "winhttp:url"; "winhttp:winhttp";
    "wininet:generated"; "wininet:http"; "wininet:internet"; "wininet:url";
    "wininet:urlcache"; "winmm:capture"; "winmm:mixer"; "winmm:mmio";
    "winmm:timer"; "winmm:wave"; "winspool.drv:info"; "wintrust:asn";
    "wintrust:crypt"; "wintrust:register"; "wintrust:softpub";
    "wldap32:parse"; "ws2_32:protocol"; "ws2_32:sock"
  ].

Definition whitelist_len : nat := List.length whitelist.

Definition mystrcmp (a : string) (bp : string) : Z := strcmp a bp.

Definition inWhitelist (testid : string) : bool :=
  match bsearch testid whitelist whitelist_len mystrcmp with
  | Found _ => true
  | _ => false
  end.

(** ** The process and the world around it *)

Inductive LockOp : Type := LOCK_EX | LOCK_UN.

(** What the supervisor does to the outside world, in program order.
    [EFork] carries what the child goes on to do: the descriptor it
    redirects its standard output and standard error to, if any, and the
    command it executes. *)
Inductive Event : Type :=
| EFprintfStderr (text : string)
| EPrintf (text : string)
| EWrite (fd : Z) (bytes : string)
| EPopen (command : string)
| EFclose
| EOpen (path : string) (mode : Z)
| EFlock (fd : Z) (op : LockOp)
| EFork (redirect : option Z) (command : list string)
| ESignal (sig : Z)
| EAlarm (seconds : Z)
| EWait
| EKill (pid sig : Z)
| EClose (fd : Z)
| ERemove (path : string)
| ESystem (command : string).

(** How the blocking [wait] ends: the child is reaped with a status, the
    call fails with an error other than [EINTR], or the child is still
    running when SIGALRM arrives, and [handler] runs. *)
Inductive WaitEnd : Type :=
| Reaped (status : Z)
| WaitError
| Deadline.

(** The answers of the outside world to one run. *)
Record World : Type := {
  stack_testid : string;        (* bytes lying in [testid] when main starts *)
  MAKEFLAGS : option string;    (* getenv("MAKEFLAGS") *)
  xrandr_before : option string;(* popen before the test: None if it fails,
                                   else the output of the pipeline *)
  xrandr_after : option string; (* the same, after the test *)
  fd_lock : Z;                  (* open("alarm.lock", ...) *)
  fd_log : Z;                   (* open(logfilename, ...) *)
  fd_loglock : Z;               (* open("log.lock", ...) *)
  pid_child : Z;                (* fork(), in the parent *)
  wait_interrupts : nat;        (* waits that fail with EINTR *)
  wait_end : WaitEnd;
  alarm_late : option nat;      (* once the wait has returned: Some k when
                                   SIGALRM still arrives before the process
                                   ends, after k more of its events (or
                                   after the last one); None when the
                                   process ends first *)
  log_size : Z;                 (* size of the capture file when the wait
                                   returns; main does not ask for it *)
  log_offset : Z;               (* lseek(logfd, 0, SEEK_CUR) *)
  log_chunks : list string;     (* what the successive read()s return *)
  system_status : Z             (* system("xrandr -s 0"), not looked at *)
}.

(** How the process ends: [exit(status)] or [return status] from main. *)
Inductive Outcome : Type :=
| Exit (status : Z).

Inductive Res (A : Type) : Type :=
| Ret (a : A)
| Stop (o : Outcome).

Arguments Ret {A} a.
Arguments Stop {A} o.

(** Computations of the process: the events so far, and a value or the
    end of the process. *)
Definition M (A : Type) : Type := (list Event * Res A)%type.

Definition ret {A : Type} (a : A) : M A := ([], Ret a).

Definition bind {A B : Type} (m : M A) (f : A -> M B) : M B :=
  match m with
  | (t, Ret a) => let (t', r) := f a in ((t ++ t')%list, r)
  | (t, Stop o) => (t, Stop o)
  end.

Definition emit (e : Event) : M unit := ([e], Ret tt).
Definition exit {A : Type} (status : Z) : M A := ([], Stop (Exit status)).

Declare Scope proc_scope.
Delimit Scope proc_scope with proc.
Notation "x <- m ;; k" := (bind m (fun x => k))
  (at level 61, m at next level, right associativity) : proc_scope.
Notation "m ;; k" := (bind m (fun _ => k))
  (at level 61, right associativity) : proc_scope.
Open Scope proc_scope.

Definition nl : string := String "010" EmptyString.

Definition msg_timeout : string := "alarm: Timeout!  Killing child." ++ nl.
Definition msg_abnormal : string := "alarm: Terminated abnormally" ++ nl.
Definition msg_video (was now : Z) : string :=
  "alarm: video mode changed! was " ++ fmt_d was ++ ", now " ++ fmt_d now
  ++ nl.
Definition msg_log_begin (testid : string) : string :=
  "alarm: runtest " ++ testid ++ " log:" ++ nl.
Definition msg_log_end : string := "alarm: log end" ++ nl.

Definition cmd_xrandr_query : string := "xrandr -q | grep -n '\*'".
Definition cmd_xrandr_reset : string := "xrandr -s 0".

(** The SIGALRM handler. *)
Definition handler {A : Type} (child_pid : Z) : M A :=
  emit (EFprintfStderr msg_timeout) ;;
  emit (EKill child_pid SIGKILL) ;;
  exit 1.

Definition isParallelRun (makeflags : option string) : bool :=
  match makeflags with
  | None => false
  | Some m => match strstr m "jobserver" with Some _ => true | None => false end
  end.

(** [getVideoMode()], with the answer of [popen]: the line number that
    [grep -n] puts in front of the active mode, less the two header lines
    of xrandr.  The subtraction is that of a two's-complement [int]. *)
Definition getVideoMode (xrandr : option string) : M Z :=
  emit (EPopen cmd_xrandr_query) ;;
  match xrandr with
  | None => ret 0
  | Some out =>
      let p := fgets 256 out in
      emit EFclose ;;
      match p with
      | None => ret 0
      | Some buf => ret (to_int (atoi buf - 2))
      end
  end.

Definition MAXARGS : nat := 1000.
Definition TESTID_SIZE : nat := 64.

(** The loop around [wait]: interrupted waits are retried; the last one
    reaps the child, fails (and leaves [waitresult] at 0), or is cut short
    by the alarm. *)
Fixpoint wait_loop (child_pid : Z) (interrupts : nat) (e : WaitEnd) : M Z :=
  match interrupts with
  | S n => emit EWait ;; wait_loop child_pid n e
  | O =>
      emit EWait ;;
      match e with
      | Reaped status => ret status
      | WaitError => ret 0
      | Deadline => handler child_pid
      end
  end.

(** The loop that copies the temporary file to standard output: it ends
    at the first [read] that returns nothing. *)
Fixpoint copy_log (chunks : list string) : M unit :=
  match chunks with
  | [] => ret tt
  | c :: chunks' =>
      if (String.length c =? 0)%nat then ret tt
      else emit (EWrite 1 c) ;; copy_log chunks'
  end.

(** The command line without the program name and the timeout, cut at
    [MAXARGS - 1] arguments. *)
Definition invocation (argv : list string) : list string :=
  firstn (MAXARGS - 1) (skipn 2 argv).

(** [notWhitelisted = getTestID(newargc,newargv,testid) && !inWhitelist(testid)] *)
Definition notWhitelisted (newargv : list string) : bool :=
  match getTestID newargv with
  | Some testid => negb (inWhitelist testid)
  | None => false
  end.

(** [sprintf(logfilename, "%s.tmplog", testid)] *)
Definition logfilename (testid : string) : string := testid ++ ".tmplog".

Definition mode_0600 : Z := 384.
Definition mode_0660 : Z := 432.

(** The block of [main] that runs under "make -jN":
<<
    lockfd = -1;
    logfd = -1;
    if (isParallelRun()) {
        if (notWhitelisted) {
            lockfd = open("alarm.lock", O_RDWR|O_CREAT, 0600);
            if (lockfd != -1)
               flock(lockfd, LOCK_EX);
        }
        sprintf(logfilename, "%s.tmplog", testid);
        logfd = open(logfilename, O_RDWR|O_CREAT, 0660);
    }
>>
    It yields [(lockfd, logfd)].  [sprintf] reads [testid] up to its NUL,
    wherever that is: main does not check the length of what [testid]
    holds, and goes on in the same way when it is longer than the
    array. *)
Definition open_files (w : World) (notWhitelisted : bool) (testid : string)
    : M (Z * Z) :=
  if isParallelRun (MAKEFLAGS w) then
    (* Get an exclusive lock, if needed *)
    lockfd <-
      (if notWhitelisted then
         emit (EOpen "alarm.lock" mode_0600) ;;
         (if fd_lock w =? -1 then ret tt
          else emit (EFlock (fd_lock w) LOCK_EX)) ;;
         ret (fd_lock w)
       else ret (-1)) ;;
    (* Redirect child's output and stderr to a temporary file ... *)
    emit (EOpen (logfilename testid) mode_0660) ;;
    ret (lockfd, fd_log w)
  else ret (-1, -1).

(** The block of [main] that replays the captured output,
<<
    if (logfd != -1 && lseek(logfd, 0, SEEK_CUR) != 0) { ... }
>> *)
Definition replay_log (w : World) (logfd : Z) (testid : string) : M unit :=
  if negb (logfd =? -1) && negb (log_offset w =? 0) then
    (* Get an exclusive lock so logs don't get mixed together *)
    let loglockfd := fd_loglock w in
    emit (EOpen "log.lock" mode_0600) ;;
    (if loglockfd =? -1 then ret tt else emit (EFlock loglockfd LOCK_EX)) ;;
    (* Print the test id, so log postprocessors know what test this log
       is for. *)
    emit (EWrite 1 (msg_log_begin testid)) ;;
    (* Copy the temporary file to stdout *)
    copy_log (log_chunks w) ;;
    emit (EClose logfd) ;;
    emit (ERemove (logfilename testid)) ;;
    emit (EWrite 1 msg_log_end) ;;
    (if loglockfd =? -1 then ret tt else emit (EFlock loglockfd LOCK_UN))
  else ret tt.

(** The block of [main] that verifies the video mode was restored. *)
Definition verify_video_mode (w : World) (notWhitelisted : bool)
    (origVideoMode : Z) : M unit :=
  if notWhitelisted then
    videoMode <- getVideoMode (xrandr_after w) ;;
    if negb (videoMode =? origVideoMode) then
      emit (EPrintf (msg_video origVideoMode videoMode)) ;;
      (* and restore *)
      emit (ESystem cmd_xrandr_reset) ;;
      exit 1
    else ret tt
  else ret tt.

(** What is left of [main] once [wait] has returned runs with the alarm
    still armed, for main never calls [alarm(0)]: either the process ends
    first, or SIGALRM arrives when the process has done [k] more things,
    the call it is blocked in or about to make is not done, and [handler]
    ends the run. *)
Definition until_alarm {A : Type} (late : option nat) (child_pid : Z)
    (m : M A) : M A :=
  match late with
  | None => m
  | Some k => (firstn k (fst m), Ret tt) ;; handler child_pid
  end.

(** [main], in the parent process: [fork] returns the child's pid or -1. *)
Definition main (argv : list string) (w : World) : M Z :=
  let argc := List.length argv in
  if (argc <? 3)%nat then
    emit (EFprintfStderr
            ("Usage: alarm timeout-in-seconds command ..." ++ nl)) ;;
    exit 1
  else
  let argv1 := nth 1 argv "" in
  let timeout := atoi argv1 in
  if timeout <? 1 then
    emit (EFprintfStderr ("Timeout must be positive, was " ++ argv1 ++ nl)) ;;
    exit 1
  else
  (* Prepare new argv with timeout removed. *)
  let newargv := invocation argv in
  let id := getTestID newargv in
  (* getTestID writes the identity to testid; when it fails testid keeps
     the bytes it had *)
  let testid := match id with Some s => s | None => stack_testid w end in
  let notWhitelisted := notWhitelisted newargv in
  origVideoMode <-
    (if notWhitelisted then getVideoMode (xrandr_before w) else ret 0) ;;
  fds <- open_files w notWhitelisted testid ;;
  let lockfd := fst fds in
  let logfd := snd fds in
  (* Run test *)
  let child_pid := pid_child w in
  emit (EFork (if logfd >? -1 then Some logfd else None) newargv) ;;
  (* Wait timeout seconds for it to finish *)
  emit (ESignal SIGALRM) ;;
  emit (EAlarm timeout) ;;
  waitresult <- wait_loop child_pid (wait_interrupts w) (wait_end w) ;;
  (* the alarm is not disarmed *)
  until_alarm (alarm_late w) child_pid
    (replay_log w logfd testid ;;
     (* Release exclusive lock, if taken *)
     (if lockfd =? -1 then ret tt else emit (EFlock lockfd LOCK_UN)) ;;
     (* Report crashes *)
     if negb (WIFEXITED waitresult) then
       emit (EPrintf msg_abnormal) ;;
       exit 99
     else
     verify_video_mode w notWhitelisted origVideoMode ;;
     (* Finally, exit with test program's exit code *)
     ret (WEXITSTATUS waitresult)).

(** One run of the supervisor: its trace and how it ends. *)
Definition run (argv : list string) (w : World) : list Event * Outcome :=
  match main argv w with
  | (t, Ret status) => (t, Exit status)
  | (t, Stop o) => (t, o)
  end.

Definition trace (argv : list string) (w : World) : list Event :=
  fst (run argv w).

Definition outcome (argv : list string) (w : World) : Outcome :=
  snd (run argv w).

(** ** Notions used in the statements *)

(** A C string holds no NUL byte. *)
Fixpoint c_string (s : string) : bool :=
  match s with
  | EmptyString => true
  | String a s' => negb (Ascii.eqb a "000") && c_string s'
  end.

Definition starts_with_digit (s : string) : bool :=
  match s with
  | String a _ => isdigit a
  | EmptyString => false
  end.

(** The line starts with an integer as [strtol] reads one: white space,
    an optional sign, a digit. *)
Definition has_number (s : string) : bool :=
  match skip_spaces s with
  | String a s' =>
      if Ascii.eqb a "-" then starts_with_digit s'
      else if Ascii.eqb a "+" then starts_with_digit s'
      else isdigit a
  | EmptyString => false
  end.

(** The ways the probe can fail: [popen] fails, there is no line to
    read, the line read does not start with an integer. *)
Inductive ProbeFailure : Type := PopenFailed | NoLine | NoNumber.

Definition probe_failure (xrandr : option string) : option ProbeFailure :=
  match xrandr with
  | None => Some PopenFailed
  | Some out =>
      match fgets 256 out with
      | None => Some NoLine
      | Some buf => if has_number buf then None else Some NoNumber
      end
  end.

(** The value [getVideoMode] returns. *)
Definition probe_value (xrandr : option string) : Z :=
  match snd (getVideoMode xrandr) with
  | Ret mode => mode
  | Stop _ => 0
  end.

(** The content of [testid] once [getTestID] has returned. *)
Definition testid_of (argv : list string) (w : World) : string :=
  match getTestID (invocation argv) with
  | Some s => s
  | None => stack_testid w
  end.

(** The arguments are accepted: there is a command, and the timeout is
    at least 1. *)
Definition launches (argv : list string) : bool :=
  (3 <=? List.length argv)%nat && (1 <=? atoi (nth 1 argv "")).

(** The values of [lockfd] and [logfd] when the child is forked. *)
Definition lockfd_of (argv : list string) (w : World) : Z :=
  if isParallelRun (MAKEFLAGS w) && notWhitelisted (invocation argv)
  then fd_lock w else -1.

Definition logfd_of (argv : list string) (w : World) : Z :=
  if isParallelRun (MAKEFLAGS w) then fd_log w else -1.

(** The events of a run before the fork: the first probe and the opening
    of the files. *)
Definition setup (argv : list string) (w : World) : list Event :=
  let nw := notWhitelisted (invocation argv) in
  ((if nw then fst (getVideoMode (xrandr_before w)) else []) ++
   fst (open_files w nw (testid_of argv w)))%list.

(** The only events there are before the fork. *)
Definition setup_event (argv : list string) (w : World) (e : Event) : Prop :=
  match e with
  | EPopen c => c = cmd_xrandr_query
  | EFclose => True
  | EOpen p _ => p = "alarm.lock" \/ p = logfilename (testid_of argv w)
  | EFlock fd LOCK_EX => fd = fd_lock w
  | _ => False
  end.

(** The fork and the arming of the alarm. *)
Definition launch (argv : list string) (w : World) : list Event :=
  [EFork (if logfd_of argv w >? -1 then Some (logfd_of argv w) else None)
         (invocation argv);
   ESignal SIGALRM;
   EAlarm (atoi (nth 1 argv ""))].

(** The release of the execution lock after the wait. *)
Definition released (lockfd : Z) : list Event :=
  if lockfd =? -1 then [] else [EFlock lockfd LOCK_UN].

(** The end of [main], from the test of [WIFEXITED] on. *)
Definition verdict (argv : list string) (w : World) (waitresult : Z) : M Z :=
  let nw := notWhitelisted (invocation argv) in
  if negb (WIFEXITED waitresult) then
    emit (EPrintf msg_abnormal) ;; exit 99
  else
    verify_video_mode w nw (if nw then probe_value (xrandr_before w) else 0) ;;
    ret (WEXITSTATUS waitresult).

(** The opening and the locking of "log.lock", and its unlocking. *)
Definition log_locked (w : World) : list Event :=
  EOpen "log.lock" mode_0600 ::
  (if fd_loglock w =? -1 then [] else [EFlock (fd_loglock w) LOCK_EX]).

Definition log_unlocked (w : World) : list Event :=
  if fd_loglock w =? -1 then [] else [EFlock (fd_loglock w) LOCK_UN].

(** The chunks that the copy loop writes: those before the first empty
    one. *)
Fixpoint chunks_read (chunks : list string) : list string :=
  match chunks with
  | [] => []
  | c :: chunks' =>
      if (String.length c =? 0)%nat then [] else c :: chunks_read chunks'
  end.

(** The framed replay of the captured output. *)
Definition framed_log (testid : string) (logfd : Z) (chunks : list string)
    : list Event :=
  (EWrite 1 (msg_log_begin testid) :: map (EWrite 1) (chunks_read chunks) ++
   [EClose logfd; ERemove (logfilename testid); EWrite 1 msg_log_end])%list.

(** The events of the replay block of [main]. *)
Definition replayed (w : World) (logfd : Z) (testid : string) : list Event :=
  if negb (logfd =? -1) && negb (log_offset w =? 0)
  then (log_locked w ++ framed_log testid logfd (log_chunks w) ++
        log_unlocked w)%list
  else [].

(** What main does once the wait has returned, when the alarm leaves it
    the time. *)
Definition after_wait (argv : list string) (w : World) (waitresult : Z)
    : M Z :=
  ((replayed w (logfd_of argv w) (testid_of argv w) ++
    released (lockfd_of argv w))%list, Ret tt) ;;
  verdict argv w waitresult.

(** What the handler does. *)
Definition alarmed (w : World) : list Event :=
  [EFprintfStderr msg_timeout; EKill (pid_child w) SIGKILL].

(** The event is neither a probe nor part of taking the execution lock:
    no [popen], no opening of "alarm.lock", no [flock] but on the
    descriptor of "log.lock". *)
Definition no_probe_no_exec_lock (w : World) (e : Event) : Prop :=
  match e with
  | EPopen _ => False
  | EOpen p _ => p <> "alarm.lock"
  | EFlock fd _ => fd = fd_loglock w
  | _ => True
  end.

Definition is_probe (e : Event) : bool :=
  match e with EPopen _ => true | _ => false end.

Definition is_report (e : Event) : bool :=
  match e with EPrintf _ | ESystem _ => true | _ => false end.

(** The world [w] with other bytes in the uninitialised [testid]. *)
Definition with_stack (garbage : string) (w : World) : World :=
  {| stack_testid := garbage;
     MAKEFLAGS := MAKEFLAGS w;
     xrandr_before := xrandr_before w;
     xrandr_after := xrandr_after w;
     fd_lock := fd_lock w; fd_log := fd_log w; fd_loglock := fd_loglock w;
     pid_child := pid_child w;
     wait_interrupts := wait_interrupts w;
     wait_end := wait_end w;
     alarm_late := alarm_late w;
     log_size := log_size w;
     log_offset := log_offset w;
     log_chunks := log_chunks w;
     system_status := system_status w |}.

(** The world [w] when SIGALRM arrives after the wait, [k] events
    later. *)
Definition with_alarm (k : nat) (w : World) : World :=
  {| stack_testid := stack_testid w;
     MAKEFLAGS := MAKEFLAGS w;
     xrandr_before := xrandr_before w;
     xrandr_after := xrandr_after w;
     fd_lock := fd_lock w; fd_log := fd_log w; fd_loglock := fd_loglock w;
     pid_child := pid_child w;
     wait_interrupts := wait_interrupts w;
     wait_end := wait_end w;
     alarm_late := Some k;
     log_size := log_size w;
     log_offset := log_offset w;
     log_chunks := log_chunks w;
     system_status := system_status w |}.


(** The world [w] when the capture file holds [size] bytes left by an
    earlier run and the child writes nothing. *)
Definition with_stale_log (size : Z) (w : World) : World :=
  {| stack_testid := stack_testid w;
     MAKEFLAGS := MAKEFLAGS w;
     xrandr_before := xrandr_before w;
     xrandr_after := xrandr_after w;
     fd_lock := fd_lock w; fd_log := fd_log w; fd_loglock := fd_loglock w;
     pid_child := pid_child w;
     wait_interrupts := wait_interrupts w;
     wait_end := wait_end w;
     alarm_late := alarm_late w;
     log_size := size;
     log_offset := 0;
     log_chunks := log_chunks w;
     system_status := system_status w |}.

(** Sample worlds: a run under "make -j4" and a run outside make. *)
Definition world_parallel : World :=
  {| stack_testid := "junk";
     MAKEFLAGS := Some "-j4 --jobserver-fds=3,4";
     xrandr_before := Some ("3:   1024x768       60.0*" ++ nl);
     xrandr_after := Some ("4:   800x600        60.0*" ++ nl);
     fd_lock := 3; fd_log := 4; fd_loglock := 5;
     pid_child := 1234;
     wait_interrupts := 0;
     wait_end := Reaped (W_EXITCODE 7 0);
     alarm_late := None;
     log_size := 5;
     log_offset := 5;
     log_chunks := ["hello"; ""];
     system_status := 0 |}.

Definition world_serial (e : WaitEnd) (after : option string) : World :=
  {| stack_testid := "junk";
     MAKEFLAGS := None;
     xrandr_before := Some ("3:   1024x768       60.0*" ++ nl);
     xrandr_after := after;
     fd_lock := 3; fd_log := 4; fd_loglock := 5;
     pid_child := 1234;
     wait_interrupts := 1;
     wait_end := e;
     alarm_late := None;
     log_size := 0;
     log_offset := 0;
     log_chunks := [];
     system_status := 0 |}.

(** ** Further notions *)

(** The character occurs in the string. *)
Fixpoint occurs (c : ascii) (s : string) : bool :=
  match s with
  | EmptyString => false
  | String a s' => Ascii.eqb a c || occurs c s'
  end.

(** The worlds agree on what the exit status is computed from: the two
    answers of xrandr, the way the wait ends, and whether the alarm goes
    off before the process ends.  They may differ in MAKEFLAGS, the bytes
    on the stack, the descriptors that [open] returns, the child's pid,
    the interrupted waits, the captured output and the result of
    [system]. *)
Definition same_inputs (w w' : World) : Prop :=
  xrandr_before w = xrandr_before w' /\
  xrandr_after w = xrandr_after w' /\
  wait_end w = wait_end w' /\
  (alarm_late w = None <-> alarm_late w' = None).

(** What a run outside "make -jN" may do: no file is opened, locked,
    closed or removed, nothing is written with [write], and the child's
    output is not redirected. *)
Definition serial_event (e : Event) : Prop :=
  match e with
  | EOpen _ _ | EFlock _ _ | EWrite _ _ | EClose _ | ERemove _ => False
  | EFork (Some _) _ => False
  | _ => True
  end.

(** The event is no part of a replay: no [write], no [close], no
    [remove], no opening of "log.lock". *)
Definition no_replay_event (e : Event) : Prop :=
  match e with
  | EWrite _ _ | EClose _ | ERemove _ => False
  | EOpen p _ => p <> "log.lock"
  | _ => True
  end.

(** [world_parallel] when no file can be opened, with another pid, waits
    that are interrupted and a reset that fails. *)
Definition world_parallel_no_files : World :=
  {| stack_testid := stack_testid world_parallel;
     MAKEFLAGS := MAKEFLAGS world_parallel;
     xrandr_before := xrandr_before world_parallel;
     xrandr_after := xrandr_after world_parallel;
     fd_lock := -1; fd_log := -1; fd_loglock := -1;
     pid_child := 4321;
     wait_interrupts := 3;
     wait_end := wait_end world_parallel;
     alarm_late := None;
     log_size := 0;
     log_offset := 0;
     log_chunks := [];
     system_status := 256 |}.

(** The number that the decimal digits [d] denote, read after [acc]. *)
Fixpoint decimal_value (d : Decimal.uint) (acc : Z) : Z :=
  match d with
  | Decimal.Nil => acc
  | Decimal.D0 d' => decimal_value d' (10 * acc + 0)
  | Decimal.D1 d' => decimal_value d' (10 * acc + 1)
  | Decimal.D2 d' => decimal_value d' (10 * acc + 2)
  | Decimal.D3 d' => decimal_value d' (10 * acc + 3)
  | Decimal.D4 d' => decimal_value d' (10 * acc + 4)
  | Decimal.D5 d' => decimal_value d' (10 * acc + 5)
  | Decimal.D6 d' => decimal_value d' (10 * acc + 6)
  | Decimal.D7 d' => decimal_value d' (10 * acc + 7)
  | Decimal.D8 d' => decimal_value d' (10 * acc + 8)
  | Decimal.D9 d' => decimal_value d' (10 * acc + 9)
  end.

(** * Properties *)

(** ** Strings and the binary search *)

Lemma byte_of_inj (x y : ascii) : byte_of x = byte_of y -> x = y.
Proof.
  unfold byte_of. intros H. apply N2Z.inj in H.
  rewrite <- (ascii_N_embedding x), <- (ascii_N_embedding y).
  now rewrite H.
Qed.

Lemma byte_of_zero (x : ascii) : byte_of x = 0 -> x = "000"%char.
Proof. intros H. apply byte_of_inj. exact H. Qed.

Lemma strcmp_refl (a : string) : strcmp a a = 0.
Proof.
  induction a as [|x a IH]; simpl; [reflexivity|].
  now rewrite Ascii.eqb_refl.
Qed.

Lemma strcmp_eq (a b : string) :
  c_string a = true -> c_string b = true -> strcmp a b = 0 -> a = b.
Proof.
  revert b. induction a as [|x a IH]; intros [|y b] Ha Hb; simpl in *.
  - reflexivity.
  - intros H. apply andb_prop in Hb as [Hy _].
    assert (y = "000"%char) as -> by (apply byte_of_zero; lia).
    discriminate.
  - intros H. apply andb_prop in Ha as [Hx _].
    apply byte_of_zero in H as ->. discriminate.
  - apply andb_prop in Ha as [_ Ha]. apply andb_prop in Hb as [_ Hb].
    destruct (Ascii.eqb_spec x y) as [->|Hxy].
    + intros H. f_equal. now apply IH.
    + intros H. exfalso. apply Hxy, byte_of_inj. lia.
Qed.

Lemma prefix_app (p s : string) : String.prefix p (p ++ s) = true.
Proof.
  induction p as [|a p IH]; simpl; [now destruct s|].
  destruct (ascii_dec a a) as [_|N]; [exact IH|now elim N].
Qed.

Lemma strrchr_app (m suffix : string) (c : ascii) :
  strrchr suffix c = None ->
  strrchr (m ++ String c suffix) c = Some (String.length m).
Proof.
  intros H. induction m as [|a m IH]; simpl.
  - now rewrite H, Ascii.eqb_refl.
  - now rewrite IH.
Qed.

Lemma substring_app (m s : string) :
  substring 0 (String.length m) (m ++ s) = m.
Proof.
  induction m as [|a m IH]; simpl.
  - now destruct s.
  - now rewrite IH.
Qed.

Section BinarySearch.

Context {A K : Type} (compar : K -> A -> Z) (key : K) (base : list A).

(** The loop ends within [u - l] iterations. *)
Lemma bsearch_loop_total (iter l u : nat) :
  (u - l <= iter)%nat -> bsearch_loop compar key base iter l u <> Cut.
Proof.
  revert l u. induction iter as [|iter IH]; intros l u Hb; cbn [bsearch_loop].
  - destruct (Nat.ltb_spec l u); [lia|discriminate].
  - destruct (Nat.ltb_spec l u) as [Hlu|]; [|discriminate].
    assert (Hd : (l <= (l + u) / 2 < u)%nat).
    { split; [apply Nat.div_le_lower_bound|apply Nat.Div0.div_lt_upper_bound];
        lia. }
    destruct (nth_error base ((l + u) / 2)) as [p|]; [|discriminate].
    destruct (compar key p <? 0); [apply IH; lia|].
    destruct (compar key p >? 0); [apply IH; lia|discriminate].
Qed.

Lemma bsearch_total (nmemb : nat) : bsearch key base nmemb compar <> Cut.
Proof. apply bsearch_loop_total. lia. Qed.

(** What the search finds compares equal to the key. *)
Lemma bsearch_loop_found (iter l u idx : nat) :
  bsearch_loop compar key base iter l u = Found idx ->
  exists p, nth_error base idx = Some p /\ compar key p = 0.
Proof.
  revert l u. induction iter as [|iter IH]; intros l u; cbn [bsearch_loop].
  - destruct (l <? u)%nat; discriminate.
  - destruct (l <? u)%nat; [|discriminate].
    destruct (nth_error base ((l + u) / 2)) as [p|] eqn:Hp; [|discriminate].
    destruct (Z.ltb_spec (compar key p) 0); [apply IH|].
    destruct (compar key p >? 0) eqn:Hgt; [apply IH|].
    intros [= <-]. exists p. split; [exact Hp|].
    rewrite Z.gtb_ltb in Hgt. apply Z.ltb_ge in Hgt. lia.
Qed.

End BinarySearch.

(** [inWhitelist] answers, and answers yes only for an entry of the
    array. *)
Lemma inWhitelist_sound (testid : string) :
  c_string testid = true -> inWhitelist testid = true -> In testid whitelist.
Proof.
  intros Hc. unfold inWhitelist, bsearch.
  destruct (bsearch_loop _ _ _ _ _ _) as [idx| |] eqn:Hb; try discriminate.
  intros _. apply bsearch_loop_found in Hb as (p & Hp & Hcmp).
  assert (Hin : In p whitelist) by (eapply nth_error_In; eauto).
  assert (Hall : forallb c_string whitelist = true) by (vm_compute; reflexivity).
  rewrite forallb_forall in Hall.
  apply strcmp_eq in Hcmp; [now subst|exact Hc|now apply Hall].
Qed.

(** ** The whitelist array *)

(** C3: the array is not sorted under [strcmp].  The entry at index 100,
    "msvcrtd:debug", is greater than its successor "msvcrt:dir": after the
    common prefix "msvcrt" the byte 'd' (100) is compared with ':' (58). *)
Theorem whitelist_not_sorted :
  nth_error whitelist 100 = Some "msvcrtd:debug" /\
  nth_error whitelist 101 = Some "msvcrt:dir" /\
  strcmp "msvcrtd:debug" "msvcrt:dir" = 42 /\
  ~ (forall (i : nat) (a b : string),
       nth_error whitelist i = Some a ->
       nth_error whitelist (S i) = Some b -> strcmp a b < 0).
Proof.
  repeat split; try reflexivity.
  intros H. specialize (H 100%nat _ _ eq_refl eq_refl).
  vm_compute in H. discriminate.
Qed.

(** It is the only place where the order fails. *)
Lemma whitelist_sorted_elsewhere (i : nat) (a b : string) :
  i <> 100%nat ->
  nth_error whitelist i = Some a -> nth_error whitelist (S i) = Some b ->
  strcmp a b < 0.
Proof.
  intros Hi Ha Hb.
  assert (Hlt : (S i < whitelist_len)%nat).
  { apply nth_error_Some. congruence. }
  assert (Hall : forallb (fun j =>
            (j =? 100)%nat ||
            match nth_error whitelist j, nth_error whitelist (S j) with
            | Some x, Some y => strcmp x y <? 0
            | _, _ => true
            end) (seq 0 (whitelist_len - 1)) = true)
    by (vm_compute; reflexivity).
  rewrite forallb_forall in Hall.
  specialize (Hall i). rewrite in_seq in Hall.
  assert (Hr : (0 <= i < 0 + (whitelist_len - 1))%nat) by lia.
  apply Hall in Hr.
  destruct (Nat.eqb_spec i 100); [contradiction|].
  rewrite Ha, Hb in Hr. now apply Z.ltb_lt.
Qed.

(** C4: "msvcrtd:debug" is an entry of the array and [inWhitelist]
    answers no for it: the search meets "msvcrt:headers" at index 104 first,
    finds the key greater and goes on among the entries after it. *)
Theorem inWhitelist_misses_entry :
  In "msvcrtd:debug" whitelist /\
  nth_error whitelist 104 = Some "msvcrt:headers" /\
  0 < mystrcmp "msvcrtd:debug" "msvcrt:headers" /\
  inWhitelist "msvcrtd:debug" = false.
Proof.
  split; [|repeat split; vm_compute; reflexivity].
  apply (nth_error_In whitelist 100). reflexivity.
Qed.

(** Every other entry is found. *)
Lemma inWhitelist_other_entries (testid : string) :
  In testid whitelist -> testid <> "msvcrtd:debug" ->
  inWhitelist testid = true.
Proof.
  intros Hin Hne.
  assert (Hall : forallb (fun s => inWhitelist s || String.eqb s "msvcrtd:debug")
                   whitelist = true) by (vm_compute; reflexivity).
  rewrite forallb_forall in Hall. specialize (Hall _ Hin).
  destruct (String.eqb_spec testid "msvcrtd:debug"); [contradiction|].
  now rewrite orb_false_r in Hall.
Qed.

(** ** Extraction of the test identity *)

Lemma scan_wine_found (pre : list string) (marker : string)
    (rest : list string) (argi : nat) :
  Forall (fun a => strstr a "wine" = None) pre ->
  strstr marker "wine" <> None ->
  scan_wine (pre ++ marker :: rest) argi = (argi + List.length pre)%nat.
Proof.
  intros Hpre Hm. revert argi.
  induction Hpre as [|a pre Ha _ IH]; intros argi; simpl.
  - destruct (strstr marker "wine"); [lia|contradiction].
  - rewrite Ha, IH. lia.
Qed.

Lemma scan_wine_none (l : list string) (argi : nat) :
  Forall (fun a => strstr a "wine" = None) l ->
  scan_wine l argi = (argi + List.length l)%nat.
Proof.
  intros H. revert argi. induction H as [|a l Ha _ IH]; intros argi; simpl.
  - lia.
  - rewrite Ha, IH. lia.
Qed.

(** X24: what the scan does find: when the first token that contains
    "wine", looked for from the second token on, is followed by a token
    [m_suffix] and a token [f.ext] ([suffix] without '_', [ext] without
    '.'), [getTestID] yields [m:f]. *)
Lemma getTestID_after_marker (cmd : string) (pre : list string)
    (marker m suffix f ext : string) (rest : list string) :
  Forall (fun a => strstr a "wine" = None) pre ->
  strstr marker "wine" <> None ->
  strrchr suffix "_" = None ->
  strrchr ext "." = None ->
  getTestID
    (cmd :: pre ++ marker :: (m ++ "_" ++ suffix) :: (f ++ "." ++ ext) :: rest)
  = Some (m ++ ":" ++ f).
Proof.
  intros Hpre Hmarker Hsuffix Hext. unfold getTestID.
  cbn [skipn]. rewrite (scan_wine_found _ _ _ _ Hpre Hmarker).
  set (n := List.length pre).
  assert (Hlen : List.length (cmd :: pre ++ marker :: (m ++ "_" ++ suffix)
                   :: (f ++ "." ++ ext) :: rest)
                 = (n + 4 + List.length rest)%nat).
  { cbn [List.length]. rewrite length_app. cbn [List.length]. subst n. lia. }
  rewrite Hlen.
  destruct (Nat.leb_spec (n + 4 + List.length rest) (1 + n + 2)); [lia|].
  replace (1 + n + 1)%nat with (S (n + 1)) by lia.
  replace (1 + n + 2)%nat with (S (n + 2)) by lia.
  cbn [nth_error].
  rewrite !nth_error_app2 by (subst n; lia).
  replace (n + 1 - List.length pre)%nat with 1%nat by (subst n; lia).
  replace (n + 2 - List.length pre)%nat with 2%nat by (subst n; lia).
  cbn [nth_error].
  change (m ++ "_" ++ suffix) with (m ++ String "_" suffix).
  change (f ++ "." ++ ext) with (f ++ String "." ext).
  rewrite (strrchr_app _ _ _ Hsuffix), (strrchr_app _ _ _ Hext).
  now rewrite !substring_app.
Qed.

Lemma getTestID_after_marker_witness :
  getTestID ["runtest"; "-q"; "wine"; "ntdll_test.exe"; "generated.c"]
  = Some "ntdll:generated".
Proof.
  apply (getTestID_after_marker "runtest" ["-q"] "wine"
           "ntdll" "test.exe" "generated" "c" []);
    [repeat constructor|discriminate|reflexivity|reflexivity].
Defined.

(** C2: the launcher in first position is missed.  The scan for "wine"
    starts at index 1 of the command, so that on a command of three
    tokens, the shape "launcher foo_test.exe foo.c" of the usage line,
    [getTestID] returns 0 whatever the tokens are: so it does on
    [wine ntdll_test.exe generated.c], while the same three tokens after
    one more token give "ntdll:generated". *)
Theorem getTestID_launcher_first :
  (forall launcher module file : string,
     getTestID [launcher; module; file] = None) /\
  getTestID
    (invocation ["alarm"; "5"; "wine"; "ntdll_test.exe"; "generated.c"])
  = None /\
  getTestID ["env"; "wine"; "ntdll_test.exe"; "generated.c"]
  = Some "ntdll:generated".
Proof.
  split; [|split; reflexivity].
  intros launcher module file. unfold getTestID.
  cbn [skipn List.length scan_wine].
  destruct (strstr module "wine"); [reflexivity|].
  destruct (strstr file "wine"); reflexivity.
Qed.

(** X22: [getTestID] fails when no token after the first contains
    "wine", however many tokens there are. *)
Lemma getTestID_no_marker (cmd : string) (args : list string) :
  Forall (fun a => strstr a "wine" = None) args ->
  getTestID (cmd :: args) = None.
Proof.
  intros H. unfold getTestID. cbn [skipn List.length].
  rewrite (scan_wine_none _ _ H).
  destruct (Nat.leb_spec (S (List.length args)) (1 + List.length args + 2));
    [reflexivity|lia].
Qed.

Lemma getTestID_no_marker_witness :
  getTestID ["runtest"; "-q"; "ntdll_test.exe"; "generated.c"] = None.
Proof.
  apply (getTestID_no_marker "runtest" ["-q"; "ntdll_test.exe"; "generated.c"]).
  repeat constructor.
Defined.

(** ** The environment probe *)

(** C9, as amended: the probe returns 0 when [popen] fails and when no
    line can be read; when a line is read that does not start with an
    integer, it returns -2. *)
Theorem getVideoMode_failures (xrandr : option string) (f : ProbeFailure) :
  probe_failure xrandr = Some f ->
  snd (getVideoMode xrandr)
  = Ret (match f with PopenFailed | NoLine => 0 | NoNumber => -2 end).
Proof.
  unfold probe_failure, getVideoMode.
  destruct xrandr as [out|]; [|now intros [= <-]].
  cbn. destruct (fgets 256 out) as [buf|]; [|now intros [= <-]].
  destruct (has_number buf) eqn:Hnum; [discriminate|]. intros [= <-].
  cbn. f_equal.
  enough (atoi buf = 0) as -> by reflexivity.
  unfold has_number in Hnum. unfold atoi, strtol.
  assert (Hd : forall s, starts_with_digit s = false -> digits s 0 = 0).
  { intros [|a s]; simpl; [reflexivity|]. now intros ->. }
  destruct (skip_spaces buf) as [|a s]; [reflexivity|].
  destruct (Ascii.eqb_spec a "-") as [->|Hm].
  { rewrite (Hd _ Hnum). reflexivity. }
  destruct (Ascii.eqb_spec a "+") as [->|Hp].
  { rewrite (Hd _ Hnum). reflexivity. }
  assert (H0 : digits (String a s) 0 = 0) by (apply Hd; exact Hnum).
  destruct a as [[] [] [] [] [] [] [] []]; try (rewrite H0; reflexivity);
    congruence.
Qed.

Lemma getVideoMode_failures_witness :
  snd (getVideoMode (Some ("Can't open display" ++ nl))) = Ret (-2).
Proof.
  apply (getVideoMode_failures (Some ("Can't open display" ++ nl)) NoNumber).
  reflexivity.
Defined.

(** C9, as stated, fails: on a first line without a number the probe
    returns -2, not 0. *)
Lemma getVideoMode_unparsed_line :
  probe_failure (Some ("Can't open display" ++ nl)) = Some NoNumber /\
  snd (getVideoMode (Some ("Can't open display" ++ nl))) = Ret (-2) /\
  (-2 <> 0).
Proof. repeat split. discriminate. Qed.

(** ** The supervisor *)

Section Computations.

Context {A B : Type}.

Lemma bind_Ret (m : M A) (f : A -> M B) (t : list Event) (a : A) :
  m = (t, Ret a) -> bind m f = ((t ++ fst (f a))%list, snd (f a)).
Proof. intros ->. unfold bind. now destruct (f a). Qed.

Lemma bind_Stop (m : M A) (f : A -> M B) (t : list Event) (o : Outcome) :
  m = (t, Stop o) -> bind m f = (t, Stop o).
Proof. now intros ->. Qed.

Lemma bind_ret (a : A) (f : A -> M B) : bind (ret a) f = f a.
Proof. unfold ret, bind. now destruct (f a). Qed.

Lemma bind_emit (e : Event) (f : unit -> M B) :
  bind (emit e) f = (e :: fst (f tt), snd (f tt)).
Proof. unfold emit, bind. now destruct (f tt). Qed.

End Computations.

Lemma getVideoMode_eq (xrandr : option string) :
  getVideoMode xrandr
  = (fst (getVideoMode xrandr), Ret (probe_value xrandr)).
Proof.
  unfold probe_value, getVideoMode.
  destruct xrandr as [out|]; [|reflexivity].
  cbn. now destruct (fgets 256 out).
Qed.

Lemma getVideoMode_events (xrandr : option string) :
  Forall (fun e => e = EPopen cmd_xrandr_query \/ e = EFclose)
    (fst (getVideoMode xrandr)).
Proof.
  unfold getVideoMode. destruct xrandr as [out|]; cbn.
  - destruct (fgets 256 out); cbn;
      (constructor; [now left|constructor; [now right|constructor]]).
  - constructor; [now left|constructor].
Qed.

Lemma wait_loop_reaped (pid : Z) (n : nat) (status : Z) :
  wait_loop pid n (Reaped status) = (repeat EWait (S n), Ret status).
Proof.
  induction n as [|n IH]; [reflexivity|].
  cbn [wait_loop]. rewrite bind_emit, IH. reflexivity.
Qed.

Lemma wait_loop_error (pid : Z) (n : nat) :
  wait_loop pid n WaitError = (repeat EWait (S n), Ret 0).
Proof.
  induction n as [|n IH]; [reflexivity|].
  cbn [wait_loop]. rewrite bind_emit, IH. reflexivity.
Qed.

Lemma wait_loop_deadline (pid : Z) (n : nat) :
  wait_loop pid n Deadline
  = ((repeat EWait (S n) ++
      [EFprintfStderr msg_timeout; EKill pid SIGKILL])%list,
     Stop (Exit 1)).
Proof.
  induction n as [|n IH]; [reflexivity|].
  cbn [wait_loop]. rewrite bind_emit, IH. reflexivity.
Qed.

Lemma copy_log_eq (chunks : list string) :
  copy_log chunks = (map (EWrite 1) (chunks_read chunks), Ret tt).
Proof.
  induction chunks as [|c chunks IH]; [reflexivity|].
  cbn [copy_log chunks_read].
  destruct (String.length c =? 0)%nat; [reflexivity|].
  rewrite bind_emit, IH. reflexivity.
Qed.

Lemma open_files_eq (w : World) (nw : bool) (testid : string) :
  open_files w nw testid
  = (fst (open_files w nw testid),
     Ret (if isParallelRun (MAKEFLAGS w)
          then (if nw then fd_lock w else -1, fd_log w)
          else (-1, -1))).
Proof.
  unfold open_files.
  destruct (isParallelRun (MAKEFLAGS w)); [|reflexivity].
  destruct nw; [destruct (fd_lock w =? -1)|]; reflexivity.
Qed.

Lemma open_files_trace (w : World) (nw : bool) (testid : string) :
  fst (open_files w nw testid)
  = if isParallelRun (MAKEFLAGS w)
    then ((if nw
           then EOpen "alarm.lock" mode_0600 ::
                (if fd_lock w =? -1 then []
                 else [EFlock (fd_lock w) LOCK_EX])
           else []) ++
          [EOpen (logfilename testid) mode_0660])%list
    else [].
Proof.
  unfold open_files.
  destruct (isParallelRun (MAKEFLAGS w)); [|reflexivity].
  destruct nw; [destruct (fd_lock w =? -1)|]; reflexivity.
Qed.

Lemma replay_log_eq (w : World) (logfd : Z) (testid : string) :
  replay_log w logfd testid = (replayed w logfd testid, Ret tt).
Proof.
  unfold replay_log, replayed, log_locked, log_unlocked, framed_log.
  destruct (negb (logfd =? -1) && negb (log_offset w =? 0)); [|reflexivity].
  destruct (fd_loglock w =? -1);
    repeat (rewrite ?bind_emit, ?bind_ret, ?(bind_Ret _ _ _ _ (copy_log_eq _));
            cbn [fst snd]);
    cbn [app]; repeat (rewrite <- ?app_assoc; cbn [app]); reflexivity.
Qed.

Lemma release_eq (lockfd : Z) :
  (if lockfd =? -1 then ret tt else emit (EFlock lockfd LOCK_UN))
  = (released lockfd, Ret tt).
Proof. unfold released. now destruct (lockfd =? -1). Qed.

Lemma launches_inv (argv : list string) :
  launches argv = true ->
  (List.length argv <? 3)%nat = false /\
  (atoi (nth 1 argv "") <? 1) = false.
Proof.
  unfold launches. intros H. apply andb_prop in H as [H1 H2].
  apply Nat.leb_le in H1. apply Z.leb_le in H2.
  split; [now apply Nat.ltb_ge|now apply Z.ltb_ge].
Qed.

Lemma setup_trace (argv : list string) (w : World) :
  setup argv w
  = ((if notWhitelisted (invocation argv)
      then fst (getVideoMode (xrandr_before w)) else []) ++
     (if isParallelRun (MAKEFLAGS w)
      then ((if notWhitelisted (invocation argv)
             then EOpen "alarm.lock" mode_0600 ::
                  (if fd_lock w =? -1 then []
                   else [EFlock (fd_lock w) LOCK_EX])
             else []) ++
            [EOpen (logfilename (testid_of argv w)) mode_0660])%list
      else []))%list.
Proof. unfold setup. now rewrite open_files_trace. Qed.

(** Splits a property of all events of a trace along its segments. *)
Ltac segments :=
  repeat match goal with
         | |- Forall _ (_ ++ _)%list => apply Forall_app; split
         end.

Lemma setup_events (argv : list string) (w : World) :
  Forall (setup_event argv w) (setup argv w).
Proof.
  rewrite setup_trace. segments.
  - destruct (notWhitelisted (invocation argv)); [|constructor].
    eapply Forall_impl; [|apply getVideoMode_events].
    intros e [-> | ->]; simpl; auto.
  - destruct (isParallelRun (MAKEFLAGS w)); [|constructor]. segments.
    + destruct (notWhitelisted (invocation argv)); [|constructor].
      constructor; [simpl; auto|].
      destruct (fd_lock w =? -1); constructor; [reflexivity|constructor].
    + constructor; [simpl; auto|constructor].
Qed.

(** What main does after the wait, as one computation. *)
Lemma after_wait_eq (argv : list string) (w : World) (waitresult : Z) :
  (replay_log w (logfd_of argv w) (testid_of argv w) ;;
   (if lockfd_of argv w =? -1 then ret tt
    else emit (EFlock (lockfd_of argv w) LOCK_UN)) ;;
   verdict argv w waitresult)
  = after_wait argv w waitresult.
Proof.
  unfold after_wait.
  rewrite (bind_Ret _ _ _ _ (replay_log_eq _ _ _)). cbv beta.
  rewrite (bind_Ret _ _ _ _ (release_eq _)). cbv beta.
  rewrite (bind_Ret _ _ _ _ eq_refl). cbn [fst snd].
  now rewrite app_assoc.
Qed.

Lemma after_wait_pair (argv : list string) (w : World) (waitresult : Z) :
  after_wait argv w waitresult
  = ((replayed w (logfd_of argv w) (testid_of argv w) ++
      released (lockfd_of argv w) ++
      fst (verdict argv w waitresult))%list,
     snd (verdict argv w waitresult)).
Proof.
  unfold after_wait. rewrite (bind_Ret _ _ _ _ eq_refl).
  now rewrite app_assoc.
Qed.

Lemma until_alarm_late {A : Type} (k : nat) (pid : Z) (m : M A) :
  until_alarm (Some k) pid m
  = ((firstn k (fst m) ++
      [EFprintfStderr msg_timeout; EKill pid SIGKILL])%list,
     Stop (Exit 1)).
Proof.
  unfold until_alarm, handler.
  now rewrite (bind_Ret _ _ _ _ eq_refl), !bind_emit.
Qed.

(** A run that reaches the fork: the events up to the alarm, then the
    wait, then the rest with the alarm still armed. *)
Lemma main_launched (argv : list string) (w : World) :
  launches argv = true ->
  main argv w
  = bind (bind ((setup argv w ++ launch argv w)%list, Ret tt)
            (fun _ => wait_loop (pid_child w) (wait_interrupts w) (wait_end w)))
      (fun waitresult =>
         until_alarm (alarm_late w) (pid_child w)
           (after_wait argv w waitresult)).
Proof.
  intros Hl. apply launches_inv in Hl as (H1 & H2).
  unfold main. rewrite H1, H2. fold (testid_of argv w).
  set (nw := notWhitelisted (invocation argv)).
  set (testid := testid_of argv w) in *.
  assert (Hprobe :
    (if nw then getVideoMode (xrandr_before w) else ret 0)
    = ((if nw then fst (getVideoMode (xrandr_before w)) else []),
       Ret (if nw then probe_value (xrandr_before w) else 0))).
  { destruct nw; [apply getVideoMode_eq|reflexivity]. }
  rewrite (bind_Ret _ _ _ _ Hprobe). cbv beta.
  rewrite (bind_Ret _ _ _ _ (open_files_eq w nw testid)). cbv beta.
  assert (Hlock : fst (if isParallelRun (MAKEFLAGS w)
                       then (if nw then fd_lock w else -1, fd_log w)
                       else (-1, -1)) = lockfd_of argv w).
  { unfold lockfd_of. fold nw.
    destruct (isParallelRun (MAKEFLAGS w)), nw; reflexivity. }
  assert (Hlog : snd (if isParallelRun (MAKEFLAGS w)
                      then (if nw then fd_lock w else -1, fd_log w)
                      else (-1, -1)) = logfd_of argv w).
  { unfold logfd_of. destruct (isParallelRun (MAKEFLAGS w)); reflexivity. }
  rewrite Hlock, Hlog. clear Hlock Hlog.
  fold (verdict argv w). 
  destruct (wait_loop (pid_child w) (wait_interrupts w) (wait_end w))
    as [t [waitresult|o]] eqn:Hwait.
  - rewrite !bind_emit.
    repeat (rewrite (bind_Ret _ _ _ _ eq_refl); cbv beta; cbn [fst snd]).
    fold testid. rewrite <- (after_wait_eq argv w waitresult). fold testid.
    unfold setup, launch. fold nw testid. 
    f_equal; repeat (rewrite <- ?app_assoc; cbn [app]); reflexivity.
  - rewrite !bind_emit.
    repeat (first [rewrite (bind_Stop _ _ _ _ eq_refl)
                  |rewrite (bind_Ret _ _ _ _ eq_refl)];
            cbv beta; cbn [fst snd]).
    unfold setup, launch. fold nw testid.
    f_equal; repeat (rewrite <- ?app_assoc; cbn [app]); reflexivity.
Qed.

(** The wait returns, with [waitresult] set or left at 0. *)
Lemma wait_returns (w : World) (waitresult : Z) :
  wait_end w = Reaped waitresult \/
  (wait_end w = WaitError /\ waitresult = 0) ->
  wait_loop (pid_child w) (wait_interrupts w) (wait_end w)
  = (repeat EWait (S (wait_interrupts w)), Ret waitresult).
Proof.
  intros [-> | [-> ->]]; [apply wait_loop_reaped|apply wait_loop_error].
Qed.

(** The three ways a run that reaches the fork can go on: the alarm goes
    off during the wait; the wait returns and the process ends before the
    alarm goes off; the wait returns and the alarm goes off later. *)
Lemma run_deadline (argv : list string) (w : World) :
  launches argv = true -> wait_end w = Deadline ->
  run argv w
  = ((setup argv w ++ launch argv w ++
      repeat EWait (S (wait_interrupts w)) ++ alarmed w)%list,
     Exit 1).
Proof.
  intros Hl Hw. unfold run. rewrite (main_launched _ _ Hl), Hw.
  rewrite wait_loop_deadline.
  rewrite (bind_Ret _ _ _ _ eq_refl). cbn [fst snd].
  rewrite (bind_Stop _ _ _ _ eq_refl). now rewrite <- app_assoc.
Qed.

Lemma run_finished (argv : list string) (w : World) (waitresult : Z) :
  launches argv = true ->
  wait_end w = Reaped waitresult \/
  (wait_end w = WaitError /\ waitresult = 0) ->
  alarm_late w = None ->
  run argv w
  = ((setup argv w ++ launch argv w ++
      repeat EWait (S (wait_interrupts w)) ++
      replayed w (logfd_of argv w) (testid_of argv w) ++
      released (lockfd_of argv w) ++
      fst (verdict argv w waitresult))%list,
     match snd (verdict argv w waitresult) with
     | Ret status => Exit status
     | Stop o => o
     end).
Proof.
  intros Hl Hw Ha. unfold run.
  rewrite (main_launched _ _ Hl), (wait_returns _ _ Hw), Ha.
  rewrite (bind_Ret _ _ _ _ eq_refl). cbn [fst snd].
  rewrite (bind_Ret _ _ _ _ eq_refl). cbv beta.
  unfold until_alarm. rewrite after_wait_pair. cbn [fst snd].
  destruct (snd (verdict argv w waitresult)) as [status|o];
    f_equal; repeat (rewrite <- ?app_assoc; cbn [app]); reflexivity.
Qed.

Lemma run_late (argv : list string) (w : World) (waitresult : Z) (k : nat) :
  launches argv = true ->
  wait_end w = Reaped waitresult \/
  (wait_end w = WaitError /\ waitresult = 0) ->
  alarm_late w = Some k ->
  run argv w
  = ((setup argv w ++ launch argv w ++
      repeat EWait (S (wait_interrupts w)) ++
      firstn k (replayed w (logfd_of argv w) (testid_of argv w) ++
                released (lockfd_of argv w) ++
                fst (verdict argv w waitresult)) ++
      alarmed w)%list,
     Exit 1).
Proof.
  intros Hl Hw Ha. unfold run.
  rewrite (main_launched _ _ Hl), (wait_returns _ _ Hw), Ha.
  rewrite (bind_Ret _ _ _ _ eq_refl). cbn [fst snd].
  rewrite (bind_Ret _ _ _ _ eq_refl). cbv beta.
  rewrite until_alarm_late, after_wait_pair. cbn [fst snd].
  unfold alarmed.
  f_equal; repeat (rewrite <- ?app_assoc; cbn [app]); reflexivity.
Qed.

Lemma run_returned (argv : list string) (w : World) (waitresult : Z) :
  launches argv = true ->
  wait_end w = Reaped waitresult \/
  (wait_end w = WaitError /\ waitresult = 0) ->
  (alarm_late w = None /\
   run argv w
   = ((setup argv w ++ launch argv w ++
       repeat EWait (S (wait_interrupts w)) ++
       replayed w (logfd_of argv w) (testid_of argv w) ++
       released (lockfd_of argv w) ++
       fst (verdict argv w waitresult))%list,
      match snd (verdict argv w waitresult) with
      | Ret status => Exit status
      | Stop o => o
      end)) \/
  (exists k,
     alarm_late w = Some k /\
     run argv w
     = ((setup argv w ++ launch argv w ++
         repeat EWait (S (wait_interrupts w)) ++
         firstn k (replayed w (logfd_of argv w) (testid_of argv w) ++
                   released (lockfd_of argv w) ++
                   fst (verdict argv w waitresult)) ++
         alarmed w)%list,
        Exit 1)).
Proof.
  intros Hl Hw. destruct (alarm_late w) as [k|] eqn:Ha.
  - right. exists k. split; [reflexivity|]. now apply run_late.
  - left. split; [reflexivity|]. now apply run_finished.
Qed.

Lemma run_cases (argv : list string) (w : World) :
  launches argv = true ->
  (wait_end w = Deadline /\
   run argv w
   = ((setup argv w ++ launch argv w ++
       repeat EWait (S (wait_interrupts w)) ++ alarmed w)%list,
      Exit 1)) \/
  exists waitresult,
    (wait_end w = Reaped waitresult \/
     wait_end w = WaitError /\ waitresult = 0) /\
    ((alarm_late w = None /\
      run argv w
      = ((setup argv w ++ launch argv w ++
          repeat EWait (S (wait_interrupts w)) ++
          replayed w (logfd_of argv w) (testid_of argv w) ++
          released (lockfd_of argv w) ++
          fst (verdict argv w waitresult))%list,
         match snd (verdict argv w waitresult) with
         | Ret status => Exit status
         | Stop o => o
         end)) \/
     (exists k,
        alarm_late w = Some k /\
        run argv w
        = ((setup argv w ++ launch argv w ++
            repeat EWait (S (wait_interrupts w)) ++
            firstn k (replayed w (logfd_of argv w) (testid_of argv w) ++
                      released (lockfd_of argv w) ++
                      fst (verdict argv w waitresult)) ++
            alarmed w)%list,
           Exit 1))).
Proof.
  intros Hl. destruct (wait_end w) as [status| |] eqn:Hw.
  - right. exists status. split; [now left|].
    apply run_returned; [exact Hl|now left].
  - right. exists 0. split; [now right|].
    apply run_returned; [exact Hl|now right].
  - left. split; [reflexivity|]. now apply run_deadline.
Qed.

(** The end of [main], case by case. *)
Lemma verdict_abnormal (argv : list string) (w : World) (status : Z) :
  WIFEXITED status = false ->
  verdict argv w status = ([EPrintf msg_abnormal], Stop (Exit 99)).
Proof. intros H. unfold verdict. now rewrite H. Qed.

Lemma verdict_whitelisted (argv : list string) (w : World) (status : Z) :
  WIFEXITED status = true -> notWhitelisted (invocation argv) = false ->
  verdict argv w status = ([], Ret (WEXITSTATUS status)).
Proof. intros H Hnw. unfold verdict. now rewrite H, Hnw. Qed.

Lemma verdict_same_mode (argv : list string) (w : World) (status : Z) :
  WIFEXITED status = true -> notWhitelisted (invocation argv) = true ->
  probe_value (xrandr_after w) = probe_value (xrandr_before w) ->
  verdict argv w status
  = (fst (getVideoMode (xrandr_after w)), Ret (WEXITSTATUS status)).
Proof.
  intros H Hnw Heq. unfold verdict, verify_video_mode. rewrite H, Hnw.
  cbn [negb]. rewrite (bind_Ret _ _ _ _ (getVideoMode_eq _)). cbv beta.
  rewrite Heq, Z.eqb_refl. unfold ret. cbn [negb fst snd].
  rewrite (bind_Ret _ _ _ _ eq_refl). cbn [fst snd].
  now rewrite !app_nil_r.
Qed.

Lemma verdict_mode_changed (argv : list string) (w : World) (status : Z) :
  WIFEXITED status = true -> notWhitelisted (invocation argv) = true ->
  probe_value (xrandr_after w) <> probe_value (xrandr_before w) ->
  verdict argv w status
  = ((fst (getVideoMode (xrandr_after w)) ++
      [EPrintf (msg_video (probe_value (xrandr_before w))
                          (probe_value (xrandr_after w)));
       ESystem cmd_xrandr_reset])%list,
     Stop (Exit 1)).
Proof.
  intros H Hnw Hne. unfold verdict, verify_video_mode. rewrite H, Hnw.
  cbn [negb]. rewrite (bind_Ret _ _ _ _ (getVideoMode_eq _)). cbv beta.
  apply Z.eqb_neq in Hne. rewrite Hne. cbn [negb].
  rewrite !bind_emit. cbn [fst snd exit].
  now rewrite (bind_Stop _ _ _ _ eq_refl).
Qed.

Lemma verdict_cases (argv : list string) (w : World) (waitresult : Z) :
  verdict argv w waitresult = ([EPrintf msg_abnormal], Stop (Exit 99)) \/
  (notWhitelisted (invocation argv) = false /\
   verdict argv w waitresult = ([], Ret (WEXITSTATUS waitresult))) \/
  (notWhitelisted (invocation argv) = true /\
   (verdict argv w waitresult
    = (fst (getVideoMode (xrandr_after w)), Ret (WEXITSTATUS waitresult)) \/
    verdict argv w waitresult
    = ((fst (getVideoMode (xrandr_after w)) ++
        [EPrintf (msg_video (probe_value (xrandr_before w))
                            (probe_value (xrandr_after w)));
         ESystem cmd_xrandr_reset])%list,
       Stop (Exit 1)))).
Proof.
  destruct (WIFEXITED waitresult) eqn:Hst.
  2:{ left. now apply verdict_abnormal. }
  right. destruct (notWhitelisted (invocation argv)) eqn:Hnw.
  2:{ left. split; [reflexivity|]. now apply verdict_whitelisted. }
  right. split; [reflexivity|].
  destruct (Z.eq_dec (probe_value (xrandr_after w))
              (probe_value (xrandr_before w))) as [Heq|Hne].
  - left. now apply verdict_same_mode.
  - right. now apply verdict_mode_changed.
Qed.

(** A run that does not reach the fork only prints the usage message or
    the complaint about the timeout. *)
Lemma run_not_launched (argv : list string) (w : World) :
  launches argv = false ->
  exists text, run argv w = ([EFprintfStderr text], Exit 1).
Proof.
  unfold launches, run, main. intros Hl.
  destruct (Nat.ltb_spec (List.length argv) 3) as [|H1]; [cbn; eauto|].
  destruct (Z.ltb_spec (atoi (nth 1 argv "")) 1) as [|H2]; [cbn; eauto|].
  apply Nat.leb_le in H1. apply Z.leb_le in H2. rewrite H1, H2 in Hl.
  discriminate.
Qed.

Lemma trace_launched (argv : list string) (w : World) :
  launches argv = true ->
  exists rest, trace argv w = (setup argv w ++ launch argv w ++ rest)%list.
Proof.
  intros Hl. unfold trace.
  destruct (run_cases argv w Hl)
    as [[_ ->]|(waitresult & _ & [[_ ->]|(k & _ & ->)])]; cbn [fst]; eauto.
Qed.

Lemma Forall_firstn_of {A : Type} (P : A -> Prop) (k : nat) (l : list A) :
  Forall P l -> Forall P (firstn k l).
Proof.
  intros H. revert k. induction H as [|a l Ha _ IH]; intros [|k];
    cbn [firstn]; constructor; auto.
Qed.

(** A property of events holds all along a run when it holds on each
    part of it. *)
Lemma trace_Forall (P : Event -> Prop) (argv : list string) (w : World) :
  (forall text, P (EFprintfStderr text)) ->
  Forall P (setup argv w) ->
  Forall P (launch argv w) ->
  P EWait ->
  P (EKill (pid_child w) SIGKILL) ->
  Forall P (replayed w (logfd_of argv w) (testid_of argv w)) ->
  Forall P (released (lockfd_of argv w)) ->
  (forall waitresult, Forall P (fst (verdict argv w waitresult))) ->
  Forall P (trace argv w).
Proof.
  intros Herr Hsetup Hlaunch Hwait Hkill Hreplay Hrel Hverdict.
  unfold trace. destruct (launches argv) eqn:Hl.
  2:{ destruct (run_not_launched _ w Hl) as [text ->]. cbn [fst].
      constructor; [apply Herr|constructor]. }
  assert (Hwaits : Forall P (repeat EWait (S (wait_interrupts w)))).
  { apply Forall_forall. now intros e ->%repeat_spec. }
  assert (Halarm : Forall P (alarmed w)).
  { unfold alarmed. repeat constructor; auto. }
  destruct (run_cases argv w Hl)
    as [[_ ->]|(waitresult & _ & [[_ ->]|(k & _ & ->)])]; cbn [fst];
    segments; auto.
  apply Forall_firstn_of. segments; auto.
Qed.

Lemma verdict_Forall (P : Event -> Prop) (argv : list string) (w : World)
    (waitresult : Z) :
  (forall text, P (EPrintf text)) ->
  (notWhitelisted (invocation argv) = true ->
   P (EPopen cmd_xrandr_query) /\ P EFclose /\ P (ESystem cmd_xrandr_reset)) ->
  Forall P (fst (verdict argv w waitresult)).
Proof.
  intros Hprint Hprobe.
  assert (Hq : notWhitelisted (invocation argv) = true ->
               Forall P (fst (getVideoMode (xrandr_after w)))).
  { intros Hnw. destruct (Hprobe Hnw) as (H1 & H2 & _).
    eapply Forall_impl; [|apply getVideoMode_events].
    now intros e [-> | ->]. }
  destruct (verdict_cases argv w waitresult)
    as [->|[[_ ->]|[Hnw [->| ->]]]]; cbn [fst].
  - repeat constructor. apply Hprint.
  - constructor.
  - now apply Hq.
  - apply Forall_app. split; [now apply Hq|].
    repeat constructor; [apply Hprint|apply (Hprobe Hnw)].
Qed.


Lemma logfilename_length (testid : string) :
  String.length (logfilename testid) = (String.length testid + 7)%nat.
Proof.
  unfold logfilename. induction testid as [|a t IH]; [reflexivity|].
  cbn [append String.length]. now rewrite IH.
Qed.

Lemma logfilename_not_lock (testid : string) :
  logfilename testid <> "alarm.lock".
Proof.
  intros H.
  assert (Hlen : String.length (logfilename testid) = 10%nat)
    by now rewrite H.
  rewrite logfilename_length in Hlen.
  destruct testid as [|a [|b [|c [|d t]]]]; cbn [String.length] in Hlen;
    try lia.
  discriminate H.
Qed.

Lemma logfilename_not_loglock (testid : string) :
  logfilename testid <> "log.lock".
Proof.
  intros H.
  assert (Hlen : String.length (logfilename testid) = 8%nat)
    by now rewrite H.
  rewrite logfilename_length in Hlen.
  destruct testid as [|a [|b t]]; cbn [String.length] in Hlen; try lia.
  discriminate H.
Qed.

Lemma replay_quiet (w : World) (logfd : Z) (testid : string) :
  Forall (fun e => is_probe e = false /\ is_report e = false)
    (replayed w logfd testid).
Proof.
  unfold replayed.
  destruct (negb (logfd =? -1) && negb (log_offset w =? 0)); [|constructor].
  unfold log_locked, log_unlocked, framed_log.
  apply Forall_app; split; [|apply Forall_app; split].
  - constructor; [now split|].
    destruct (fd_loglock w =? -1); repeat constructor.
  - constructor; [now split|]. apply Forall_app; split.
    + apply Forall_forall. intros e (c & <- & _)%in_map_iff. now split.
    + repeat constructor.
  - destruct (fd_loglock w =? -1); repeat constructor.
Qed.

Lemma setup_event_quiet (argv : list string) (w : World) (e : Event) :
  setup_event argv w e -> is_report e = false.
Proof. destruct e; simpl; intros H; solve [reflexivity|contradiction]. Qed.

(** *** When no identity is extracted *)

(** C1, as amended: when [getTestID] fails, [notWhitelisted] is false, as
    for a test on the whitelist: the run has no probe, does not open
    "alarm.lock", and locks nothing but "log.lock". *)
Theorem extraction_failure_is_permissive (argv : list string) (w : World) :
  getTestID (invocation argv) = None ->
  notWhitelisted (invocation argv) = false /\
  Forall (no_probe_no_exec_lock w) (trace argv w).
Proof.
  intros Hid.
  assert (Hnw : notWhitelisted (invocation argv) = false).
  { unfold notWhitelisted. now rewrite Hid. }
  split; [exact Hnw|]. apply trace_Forall.
  - intros text. exact I.
  - rewrite setup_trace, Hnw. cbn [app].
    destruct (isParallelRun (MAKEFLAGS w)); repeat constructor.
    apply logfilename_not_lock.
  - repeat constructor.
  - exact I.
  - exact I.
  - unfold replayed.
    destruct (negb (logfd_of argv w =? -1) && negb (log_offset w =? 0));
      [|constructor].
    unfold log_locked, log_unlocked, framed_log. segments.
    + constructor; [discriminate|].
      destruct (fd_loglock w =? -1); repeat constructor.
    + constructor; [exact I|]. segments.
      * apply Forall_forall. now intros e (c & <- & _)%in_map_iff.
      * repeat constructor.
    + destruct (fd_loglock w =? -1); repeat constructor.
  - unfold released, lockfd_of. rewrite Hnw, andb_false_r. constructor.
  - intros waitresult. apply verdict_Forall; [intros; exact I|].
    rewrite Hnw. discriminate.
Qed.

Lemma extraction_failure_is_permissive_witness :
  notWhitelisted (invocation ["alarm"; "5"; "sleep"; "10"]) = false /\
  Forall (no_probe_no_exec_lock world_parallel)
    (trace ["alarm"; "5"; "sleep"; "10"] world_parallel).
Proof.
  apply (extraction_failure_is_permissive
           ["alarm"; "5"; "sleep"; "10"] world_parallel).
  reflexivity.
Defined.

(** C1, as stated, fails: under "make -j4" the command [sleep 10], from
    which no identity is extracted, runs without a probe and without the
    execution lock. *)
Lemma extraction_failure_not_conservative :
  getTestID (invocation ["alarm"; "5"; "sleep"; "10"]) = None /\
  isParallelRun (MAKEFLAGS world_parallel) = true /\
  trace ["alarm"; "5"; "sleep"; "10"] world_parallel
  = [EOpen "junk.tmplog" mode_0660;
     EFork (Some 4) ["sleep"; "10"];
     ESignal SIGALRM; EAlarm 5; EWait;
     EOpen "log.lock" mode_0600; EFlock 5 LOCK_EX;
     EWrite 1 (msg_log_begin "junk"); EWrite 1 "hello";
     EClose 4; ERemove "junk.tmplog"; EWrite 1 msg_log_end;
     EFlock 5 LOCK_UN] /\
  outcome ["alarm"; "5"; "sleep"; "10"] world_parallel = Exit 7.
Proof. repeat split. Qed.

(** *** The deadline *)

(** C5: when the alarm goes off while the child is still running, the
    supervisor prints "alarm: Timeout!  Killing child." to standard
    error, sends signal 9 (SIGKILL) to the child and exits with status 1.
    After the fork and the arming of the alarm the run consists of the
    waits and these two events only; before the fork, of the first probe
    and the opening and locking of the files. *)
Theorem timeout_kills_and_exits (argv : list string) (w : World) :
  launches argv = true -> wait_end w = Deadline ->
  outcome argv w = Exit 1 /\
  trace argv w
  = (setup argv w ++
     EFork (if logfd_of argv w >? -1 then Some (logfd_of argv w) else None)
           (invocation argv) ::
     ESignal 14 :: EAlarm (atoi (nth 1 argv "")) ::
     repeat EWait (S (wait_interrupts w)) ++
     [EFprintfStderr ("alarm: Timeout!  Killing child." ++ nl)%string;
      EKill (pid_child w) 9])%list /\
  Forall (setup_event argv w) (setup argv w).
Proof.
  intros Hl Hw. unfold outcome, trace. rewrite (run_deadline _ _ Hl Hw).
  repeat split. apply setup_events.
Qed.

Lemma timeout_kills_and_exits_witness :
  outcome ["alarm"; "5"; "runtest"; "wine"; "ntdll_test.exe"; "generated.c"]
    (world_serial Deadline None) = Exit 1.
Proof.
  apply (timeout_kills_and_exits
           ["alarm"; "5"; "runtest"; "wine"; "ntdll_test.exe"; "generated.c"]
           (world_serial Deadline None)); reflexivity.
Defined.

(** *** The exit status *)







(** *** The video mode *)

(** C8, as amended: for a test whose identity is extracted and is no
    entry of the whitelist, and whose child exits normally: when the probe after the test gives a value other than the
    one before and the alarm does not go off before the supervisor ends,
    the run ends with the message "alarm: video mode changed! was
    <before>, now <after>", the two values in decimal, and the command
    "xrandr -s 0", whose result is not looked at, and the exit status is
    1; when the two values are equal the run has no message and no
    reset, and the exit status is the child's unless the alarm goes
    off. *)
Theorem video_mode_mismatch (argv : list string) (w : World) (id : string)
    (status : Z) :
  launches argv = true ->
  getTestID (invocation argv) = Some id ->
  c_string id = true -> ~ In id whitelist ->
  wait_end w = Reaped status ->
  WIFEXITED status = true ->
  let before := probe_value (xrandr_before w) in
  let after := probe_value (xrandr_after w) in
  (after <> before -> alarm_late w = None ->
   outcome argv w = Exit 1 /\
   exists pre,
     trace argv w
     = (pre ++
        [EPrintf ("alarm: video mode changed! was " ++ fmt_d before ++
                  ", now " ++ fmt_d after ++ nl)%string;
         ESystem "xrandr -s 0"])%list) /\
  (after = before ->
   Forall (fun e => is_report e = false) (trace argv w) /\
   (alarm_late w = None -> outcome argv w = Exit (WEXITSTATUS status))).
Proof.
  intros Hl Hid Hc Hout Hw Hst before after.
  assert (Hnw : notWhitelisted (invocation argv) = true).
  { unfold notWhitelisted. rewrite Hid.
    destruct (inWhitelist id) eqn:Hin; [|reflexivity].
    now apply inWhitelist_sound in Hin. }
  split.
  - intros Hne Ha. unfold outcome, trace.
    rewrite (run_finished _ _ _ Hl (or_introl Hw) Ha).
    rewrite (verdict_mode_changed _ _ _ Hst Hnw Hne).
    cbn [fst snd]. split; [reflexivity|].
    eexists. rewrite !app_assoc. reflexivity.
  - intros Heq.
    pose proof (verdict_same_mode _ _ _ Hst Hnw Heq) as Hv.
    assert (Hrest : Forall (fun e => is_report e = false)
              (replayed w (logfd_of argv w) (testid_of argv w) ++
               released (lockfd_of argv w) ++
               fst (verdict argv w status))%list).
    { rewrite Hv. cbn [fst]. segments.
      - eapply Forall_impl; [|apply replay_quiet]. now intros e [_ H].
      - unfold released.
        destruct (lockfd_of argv w =? -1); repeat constructor.
      - eapply Forall_impl; [|apply getVideoMode_events].
        now intros e [-> | ->]. }
    assert (Hpre : Forall (fun e => is_report e = false)
              (setup argv w ++ launch argv w ++
               repeat EWait (S (wait_interrupts w)))%list).
    { segments.
      - eapply Forall_impl; [apply setup_event_quiet|apply setup_events].
      - repeat constructor.
      - apply Forall_forall. now intros e ->%repeat_spec. }
    split.
    + unfold trace.
      destruct (run_returned argv w status Hl (or_introl Hw))
        as [[_ ->]|(k & _ & ->)]; cbn [fst]; rewrite !app_assoc;
        rewrite <- !app_assoc, app_assoc, app_assoc;
        rewrite <- (app_assoc (setup argv w));
        (apply Forall_app; split; [exact Hpre|]).
      * exact Hrest.
      * apply Forall_app. split; [now apply Forall_firstn_of|].
        repeat constructor.
    + intros Ha. unfold outcome.
      rewrite (run_finished _ _ _ Hl (or_introl Hw) Ha), Hv. reflexivity.
Qed.

Lemma video_mode_mismatch_witness :
  outcome ["alarm"; "5"; "runtest"; "wine"; "foo_test.exe"; "bar.c"]
    world_parallel = Exit 1 /\
  exists pre,
    trace ["alarm"; "5"; "runtest"; "wine"; "foo_test.exe"; "bar.c"]
      world_parallel
    = (pre ++
       [EPrintf ("alarm: video mode changed! was " ++ fmt_d 1 ++
                 ", now " ++ fmt_d 2 ++ nl)%string;
        ESystem "xrandr -s 0"])%list.
Proof.
  assert (Hout : ~ In "foo:bar" whitelist).
  { intros H. repeat (destruct H as [H|H]; [discriminate H|]). exact H. }
  apply (proj1 (video_mode_mismatch
                  ["alarm"; "5"; "runtest"; "wine"; "foo_test.exe"; "bar.c"]
                  world_parallel "foo:bar" (W_EXITCODE 7 0)
                  eq_refl eq_refl eq_refl Hout eq_refl eq_refl));
    [discriminate|reflexivity].
Defined.

(** C8, as stated, fails.  First run: the test is not whitelisted, its
    child exits normally, the second probe gives 2 where the first gave
    1, and the alarm goes off before the message is printed: the run has
    no message and no reset.  Second run: no identity is extracted from
    [sleep 10], so that there is no probe at all, and the supervisor
    exits with the child's code although the two answers of xrandr
    differ. *)
Lemma mismatch_unreported :
  trace ["alarm"; "5"; "runtest"; "wine"; "foo_test.exe"; "bar.c"]
    (with_alarm 11 world_parallel)
  = [EPopen "xrandr -q | grep -n '\*'"; EFclose;
     EOpen "alarm.lock" 384; EFlock 3 LOCK_EX;
     EOpen "foo:bar.tmplog" 432;
     EFork (Some 4) ["runtest"; "wine"; "foo_test.exe"; "bar.c"];
     ESignal 14; EAlarm 5; EWait;
     EOpen "log.lock" 384; EFlock 5 LOCK_EX;
     EWrite 1 ("alarm: runtest foo:bar log:" ++ nl)%string;
     EWrite 1 "hello"; EClose 4; ERemove "foo:bar.tmplog";
     EWrite 1 ("alarm: log end" ++ nl)%string;
     EFlock 5 LOCK_UN; EFlock 3 LOCK_UN;
     EPopen "xrandr -q | grep -n '\*'"; EFclose;
     EFprintfStderr ("alarm: Timeout!  Killing child." ++ nl)%string;
     EKill 1234 9] /\
  probe_value (xrandr_before world_parallel) = 1 /\
  probe_value (xrandr_after world_parallel) = 2 /\
  getTestID (invocation ["alarm"; "5"; "sleep"; "10"]) = None /\
  Forall (fun e => is_probe e = false /\ is_report e = false)
    (trace ["alarm"; "5"; "sleep"; "10"] world_parallel) /\
  outcome ["alarm"; "5"; "sleep"; "10"] world_parallel = Exit 7.
Proof. repeat split; repeat constructor. Qed.

(** *** The captured output *)

Lemma trace_opens_log (argv : list string) (w : World) :
  launches argv = true ->
  isParallelRun (MAKEFLAGS w) = true ->
  exists pre post,
    trace argv w
    = (pre ++
       EOpen (logfilename (testid_of argv w)) mode_0660 ::
       EFork (if fd_log w >? -1 then Some (fd_log w) else None)
             (invocation argv) :: post)%list.
Proof.
  intros Hl Hp. destruct (trace_launched argv w Hl) as [rest ->].
  rewrite setup_trace. unfold launch, logfd_of. rewrite Hp.
  rewrite <- !app_assoc. cbn [app]. rewrite app_assoc.
  eexists _, _. reflexivity.
Qed.

(** C10, as amended: under "make -jN" the supervisor opens the file
    [testid ++ ".tmplog"] right before the fork and hands it to the
    child, whatever the whitelist says and whether or not [getTestID]
    succeeded; [testid] is the identity when there is one and else what
    the stack held.  When the wait returns, the file was opened, the
    offset of its descriptor is not 0 and the alarm does not go off
    before the supervisor ends, the run has the framed replay: the line
    "alarm: runtest <testid> log:", the chunks read, the closing and the
    removal of the file, the line "alarm: log end". *)
Theorem parallel_capture_any_identity (argv : list string) (w : World) :
  launches argv = true ->
  isParallelRun (MAKEFLAGS w) = true ->
  let testid :=
    match getTestID (invocation argv) with
    | Some id => id
    | None => stack_testid w
    end in
  (exists pre post,
     trace argv w
     = (pre ++
        EOpen (testid ++ ".tmplog")%string 432 ::
        EFork (if fd_log w >? -1 then Some (fd_log w) else None)
              (invocation argv) :: post)%list) /\
  (wait_end w <> Deadline -> alarm_late w = None ->
   fd_log w <> -1 -> log_offset w <> 0 ->
   exists pre post,
     trace argv w
     = (pre ++
        EWrite 1 ("alarm: runtest " ++ testid ++ " log:" ++ nl)%string ::
        map (EWrite 1) (chunks_read (log_chunks w)) ++
        EClose (fd_log w) :: ERemove (testid ++ ".tmplog")%string ::
        EWrite 1 ("alarm: log end" ++ nl)%string :: post)%list).
Proof.
  intros Hl Hp testid. fold (testid_of argv w) in testid. split.
  - now apply trace_opens_log.
  - intros Hw Ha Hfd Hoff.
    assert (Hreplay :
      replayed w (logfd_of argv w) (testid_of argv w)
      = (log_locked w ++ framed_log testid (fd_log w) (log_chunks w) ++
         log_unlocked w)%list).
    { unfold replayed, logfd_of. rewrite Hp.
      apply Z.eqb_neq in Hfd, Hoff. now rewrite Hfd, Hoff. }
    unfold trace.
    destruct (run_cases argv w Hl)
      as [[Hd _]|(waitresult & _ & [[_ ->]|(k & Hk & _)])];
      [contradiction| |congruence].
    cbn [fst]. rewrite Hreplay. unfold framed_log.
    exists (setup argv w ++ launch argv w ++
            repeat EWait (S (wait_interrupts w)) ++ log_locked w)%list.
    eexists. repeat (rewrite <- ?app_assoc; cbn [app]). reflexivity.
Qed.

Lemma parallel_capture_any_identity_witness :
  exists pre post,
    trace ["alarm"; "5"; "wine"; "ntdll_test.exe"; "generated.c"]
      world_parallel
    = (pre ++
       EWrite 1 ("alarm: runtest " ++ "junk" ++ " log:" ++ nl)%string ::
       map (EWrite 1) (chunks_read ["hello"; ""]) ++
       EClose 4 :: ERemove ("junk" ++ ".tmplog")%string ::
       EWrite 1 ("alarm: log end" ++ nl)%string :: post)%list.
Proof.
  apply (proj2 (parallel_capture_any_identity
                  ["alarm"; "5"; "wine"; "ntdll_test.exe"; "generated.c"]
                  world_parallel eq_refl eq_refl));
    try reflexivity; discriminate.
Defined.

(** C10, as stated, fails.  First run: the capture file holds 100 bytes
    left by an earlier run and the child writes nothing, so that the
    offset is 0: the file is not empty and nothing is replayed.  Second
    run: the child has written, and the alarm goes off while the
    supervisor waits for "log.lock": nothing is replayed either. *)
Lemma capture_not_replayed :
  log_size (with_stale_log 100 world_parallel) = 100 /\
  fd_log (with_stale_log 100 world_parallel) = 4 /\
  trace ["alarm"; "5"; "runtest"; "wine"; "ntdll_test.exe"; "generated.c"]
    (with_stale_log 100 world_parallel)
  = [EOpen "ntdll:generated.tmplog" 432;
     EFork (Some 4) ["runtest"; "wine"; "ntdll_test.exe"; "generated.c"];
     ESignal 14; EAlarm 5; EWait] /\
  log_offset (with_alarm 1 world_parallel) = 5 /\
  trace ["alarm"; "5"; "runtest"; "wine"; "ntdll_test.exe"; "generated.c"]
    (with_alarm 1 world_parallel)
  = [EOpen "ntdll:generated.tmplog" 432;
     EFork (Some 4) ["runtest"; "wine"; "ntdll_test.exe"; "generated.c"];
     ESignal 14; EAlarm 5; EWait;
     EOpen "log.lock" 384;
     EFprintfStderr ("alarm: Timeout!  Killing child." ++ nl)%string;
     EKill 1234 9].
Proof. repeat split. Qed.

(** The same command under the same conditions, with other bytes on the
    stack, captures the output in another file. *)
Lemma capture_file_follows_stack (garbage : string) :
  In (EOpen (logfilename garbage) mode_0660)
     (trace ["alarm"; "5"; "wine"; "ntdll_test.exe"; "generated.c"]
            (with_stack garbage world_parallel)).
Proof.
  set (argv := ["alarm"; "5"; "wine"; "ntdll_test.exe"; "generated.c"]).
  set (w := with_stack garbage world_parallel).
  destruct (trace_opens_log argv w eq_refl eq_refl) as (pre & post & ->).
  apply in_or_app. right. left. reflexivity.
Qed.
(** * Further properties *)

(** ** Substrings *)

Lemma prefix_split (p s : string) :
  String.prefix p s = true -> exists post, s = p ++ post.
Proof.
  revert s. induction p as [|a p IH]; intros s H.
  - exists s. reflexivity.
  - destruct s as [|b s]; [discriminate|]. simpl in H.
    destruct (ascii_dec a b) as [->|]; [|discriminate].
    destruct (IH _ H) as [post ->]. exists post. reflexivity.
Qed.

Lemma strstr_spec (hay needle : string) :
  strstr hay needle <> None <->
  exists pre post, hay = pre ++ needle ++ post.
Proof.
  split.
  - induction hay as [|a hay IH]; cbn [strstr].
    + destruct (String.prefix needle "") eqn:Hp; [|congruence].
      intros _. destruct (prefix_split _ _ Hp) as [post Hpost].
      exists "", post. exact Hpost.
    + destruct (String.prefix needle (String a hay)) eqn:Hp.
      * intros _. destruct (prefix_split _ _ Hp) as [post Hpost].
        exists "", post. exact Hpost.
      * intros H. destruct (IH H) as (pre & post & ->).
        exists (String a pre), post. reflexivity.
  - intros (pre & post & ->). induction pre as [|a pre IH].
    + cbn [append]. destruct (needle ++ post) eqn:E; cbn [strstr];
        rewrite <- ?E, prefix_app; discriminate.
    + cbn [append strstr].
      destruct (String.prefix needle (String a (pre ++ needle ++ post)));
        [discriminate|exact IH].
Qed.

(** X1: [isParallelRun] answers yes exactly when MAKEFLAGS is set and
    "jobserver" occurs somewhere in its value. *)
Theorem isParallelRun_spec (makeflags : option string) :
  isParallelRun makeflags = true <->
  exists m pre post, makeflags = Some m /\ m = pre ++ "jobserver" ++ post.
Proof.
  unfold isParallelRun. split.
  - destruct makeflags as [m|]; [|discriminate].
    destruct (strstr m "jobserver") eqn:E; [|discriminate]. intros _.
    assert (H : strstr m "jobserver" <> None) by congruence.
    apply strstr_spec in H as (pre & post & ->). eauto.
  - intros (m & pre & post & -> & ->).
    assert (H : strstr (pre ++ "jobserver" ++ post) "jobserver" <> None)
      by (apply strstr_spec; eauto).
    destruct (strstr _ _); congruence.
Qed.

Lemma strrchr_None (s : string) (c : ascii) :
  strrchr s c = None <-> occurs c s = false.
Proof.
  induction s as [|a s IH]; cbn [strrchr occurs]; [tauto|].
  destruct (strrchr s c) as [i|].
  - split; [discriminate|]. intros H. apply orb_false_elim in H as [_ H].
    apply IH in H. discriminate.
  - destruct (Ascii.eqb a c); cbn [orb]; [split; discriminate|].
    split; intros _; [now apply IH|reflexivity].
Qed.

(** [strrchr] cuts the string at the last occurrence of the character. *)
Lemma strrchr_Some (s : string) (c : ascii) (i : nat) :
  strrchr s c = Some i ->
  exists m suffix,
    s = m ++ String c suffix /\ String.length m = i /\
    strrchr suffix c = None /\ substring 0 i s = m.
Proof.
  revert i. induction s as [|a s IH]; intros i; cbn [strrchr]; [discriminate|].
  destruct (strrchr s c) as [j|] eqn:E.
  - intros [= <-]. destruct (IH _ eq_refl) as (m & suffix & -> & <- & Hs & Hm).
    exists (String a m), suffix.
    repeat split; auto; cbn [substring String.length]; now rewrite Hm.
  - destruct (Ascii.eqb_spec a c) as [->|]; [|discriminate].
    intros [= <-]. exists "", s. repeat split; auto.
Qed.

(** ** More on the extraction of the test identity *)

(** Where the scan for the launcher stops: at the end, when no token
    contains "wine"; else at the first token that does. *)
Lemma scan_wine_split (l : list string) (argi : nat) :
  (Forall (fun a => strstr a "wine" = None) l /\
   scan_wine l argi = (argi + List.length l)%nat) \/
  (exists pre marker rest,
     l = (pre ++ marker :: rest)%list /\
     Forall (fun a => strstr a "wine" = None) pre /\
     strstr marker "wine" <> None /\
     scan_wine l argi = (argi + List.length pre)%nat).
Proof.
  revert argi. induction l as [|a l IH]; intros argi; cbn [scan_wine].
  - left. split; [constructor|cbn; lia].
  - destruct (strstr a "wine") eqn:E.
    + right. exists [], a, l. repeat split; [constructor|congruence|cbn; lia].
    + destruct (IH (S argi)) as [[Hall Hs]|(pre & marker & rest & -> & Hp & Hm & Hs)].
      * left. split; [now constructor|]. rewrite Hs. cbn. lia.
      * right. exists (a :: pre), marker, rest.
        repeat split; [now constructor|exact Hm|]. rewrite Hs. cbn. lia.
Qed.

(** X2: whenever [getTestID] succeeds, the command has the shape the
    identity is read from: after the first token, the first token that
    contains "wine" is followed by [m_suffix] ([suffix] without '_') and
    [f.ext] ([ext] without '.'), and the identity is [m:f]. *)
Theorem getTestID_shape (argv : list string) (id : string) :
  getTestID argv = Some id ->
  exists (cmd : string) (pre : list string) (marker m suffix f ext : string)
         (rest : list string),
    argv = cmd :: pre ++ marker :: (m ++ "_" ++ suffix)
                      :: (f ++ "." ++ ext) :: rest /\
    Forall (fun a => strstr a "wine" = None) pre /\
    strstr marker "wine" <> None /\
    occurs "_" suffix = false /\
    occurs "." ext = false /\
    id = m ++ ":" ++ f.
Proof.
  unfold getTestID. destruct argv as [|cmd args]; [discriminate|].
  cbn [skipn List.length].
  destruct (scan_wine_split args 1)
    as [[_ Hs]|(pre & marker & rest & -> & Hpre & Hmarker & Hs)]; rewrite Hs.
  { destruct (Nat.leb_spec (S (List.length args)) (1 + List.length args + 2));
      [discriminate|lia]. }
  set (n := List.length pre).
  destruct (S (List.length (pre ++ marker :: rest)) <=? 1 + n + 2)%nat;
    [discriminate|].
  replace (1 + n + 1)%nat with (S (n + 1)) by lia.
  replace (1 + n + 2)%nat with (S (n + 2)) by lia.
  cbn [nth_error]. rewrite !nth_error_app2 by (subst n; lia).
  replace (n + 1 - List.length pre)%nat with 1%nat by (subst n; lia).
  replace (n + 2 - List.length pre)%nat with 2%nat by (subst n; lia).
  destruct rest as [|module rest]; cbn [nth_error]; [discriminate|].
  destruct (strrchr module "_") as [me|] eqn:Em; [|discriminate].
  destruct rest as [|file rest]; cbn [nth_error]; [discriminate|].
  destruct (strrchr file ".") as [fe|] eqn:Ef; [|discriminate].
  intros [= <-].
  destruct (strrchr_Some _ _ _ Em) as (m & suffix & -> & _ & Hsuf & ->).
  destruct (strrchr_Some _ _ _ Ef) as (f & ext & -> & _ & Hext & ->).
  exists cmd, pre, marker, m, suffix, f, ext, rest.
  repeat split; auto; now apply strrchr_None.
Qed.

Lemma getTestID_shape_witness :
  exists (cmd : string) (pre : list string) (marker m suffix f ext : string)
         (rest : list string),
    ["runtest"; "-q"; "wine"; "ntdll_test.exe"; "generated.c"]
    = cmd :: pre ++ marker :: (m ++ "_" ++ suffix)
                 :: (f ++ "." ++ ext) :: rest /\
    Forall (fun a => strstr a "wine" = None) pre /\
    strstr marker "wine" <> None /\
    occurs "_" suffix = false /\
    occurs "." ext = false /\
    "ntdll:generated" = m ++ ":" ++ f.
Proof.
  apply (getTestID_shape
           ["runtest"; "-q"; "wine"; "ntdll_test.exe"; "generated.c"]
           "ntdll:generated").
  reflexivity.
Defined.

(** X3: the first token of the command plays no part in the extraction:
    replacing it changes nothing, whether or not it contains "wine". *)
Theorem getTestID_first_token (cmd cmd' : string) (args : list string) :
  getTestID (cmd :: args) = getTestID (cmd' :: args).
Proof.
  unfold getTestID. cbn [skipn List.length].
  set (argi := scan_wine args 1).
  replace (argi + 1)%nat with (S argi) by lia.
  replace (argi + 2)%nat with (S (S argi)) by lia.
  reflexivity.
Qed.

(** X4: when fewer than two tokens follow the first token that contains
    "wine", no identity is extracted, whatever the tokens are. *)
Theorem getTestID_short_tail (cmd : string) (pre : list string)
    (marker : string) (rest : list string) :
  Forall (fun a => strstr a "wine" = None) pre ->
  strstr marker "wine" <> None ->
  (List.length rest < 2)%nat ->
  getTestID (cmd :: pre ++ marker :: rest) = None.
Proof.
  intros Hpre Hmarker Hrest. unfold getTestID. cbn [skipn List.length].
  rewrite (scan_wine_found _ _ _ _ Hpre Hmarker), length_app.
  cbn [List.length].
  destruct (Nat.leb_spec (S (List.length pre + S (List.length rest)))
              (1 + List.length pre + 2)); [reflexivity|lia].
Qed.

Lemma getTestID_short_tail_witness :
  getTestID ["runtest"; "wine"; "ntdll_test.exe"] = None.
Proof.
  apply (getTestID_short_tail "runtest" [] "wine" ["ntdll_test.exe"]);
    [constructor|discriminate|cbn; lia].
Defined.

(** X5: when the token after the launcher has no '_', or the one after
    that has no '.', no identity is extracted. *)
Theorem getTestID_missing_delimiter (cmd : string) (pre : list string)
    (marker module file : string) (rest : list string) :
  Forall (fun a => strstr a "wine" = None) pre ->
  strstr marker "wine" <> None ->
  occurs "_" module = false \/ occurs "." file = false ->
  getTestID (cmd :: pre ++ marker :: module :: file :: rest) = None.
Proof.
  intros Hpre Hmarker Hmiss.
  destruct (getTestID (cmd :: pre ++ marker :: module :: file :: rest))
    as [id|] eqn:E; [exfalso|reflexivity].
  unfold getTestID in E. cbn [skipn List.length] in E.
  rewrite (scan_wine_found _ _ _ _ Hpre Hmarker) in E.
  set (n := List.length pre) in *.
  destruct (_ <=? _)%nat in E; [discriminate|].
  replace (1 + n + 1)%nat with (S (n + 1)) in E by lia.
  replace (1 + n + 2)%nat with (S (n + 2)) in E by lia.
  cbn [nth_error] in E. rewrite !nth_error_app2 in E by (subst n; lia).
  replace (n + 1 - List.length pre)%nat with 1%nat in E by (subst n; lia).
  replace (n + 2 - List.length pre)%nat with 2%nat in E by (subst n; lia).
  cbn [nth_error] in E.
  destruct Hmiss as [H|H]; apply strrchr_None in H; rewrite H in E;
    [discriminate|].
  destruct (strrchr module "_"); discriminate.
Qed.

Lemma getTestID_missing_delimiter_witness :
  getTestID ["runtest"; "wine"; "-M"; "ntdll.dll"; "ntdll_test.exe"] = None.
Proof.
  apply (getTestID_missing_delimiter "runtest" [] "wine" "-M" "ntdll.dll"
           ["ntdll_test.exe"]);
    [constructor|discriminate|left; reflexivity].
Defined.

(** ** More on the whitelist lookup *)

(** X6: for a C string, [inWhitelist] answers yes exactly for the entries
    of the array other than "msvcrtd:debug". *)
Theorem inWhitelist_exact (testid : string) :
  c_string testid = true ->
  (inWhitelist testid = true <->
   In testid whitelist /\ testid <> "msvcrtd:debug").
Proof.
  intros Hc. split.
  - intros H. split; [now apply inWhitelist_sound|].
    intros ->. vm_compute in H. discriminate.
  - intros [Hin Hne]. now apply inWhitelist_other_entries.
Qed.

Lemma inWhitelist_exact_witness :
  inWhitelist "ntdll:generated" = true <->
  In "ntdll:generated" whitelist /\ "ntdll:generated" <> "msvcrtd:debug".
Proof. apply (inWhitelist_exact "ntdll:generated"). reflexivity. Defined.

Lemma byte_of_nonneg (x : ascii) : 0 <= byte_of x.
Proof. unfold byte_of. lia. Qed.

(** [strcmp] orders the strings: swapping the arguments swaps the sign. *)
Lemma strcmp_swap (a b : string) : strcmp a b < 0 -> 0 < strcmp b a.
Proof.
  revert b. induction a as [|x a IH]; intros [|y b]; cbn [strcmp];
    try lia.
  rewrite (Ascii.eqb_sym y x).
  destruct (Ascii.eqb x y); [apply IH|lia].
Qed.

Lemma strcmp_trans (a b c : string) :
  strcmp a b < 0 -> strcmp b c < 0 -> strcmp a c < 0.
Proof.
  revert b c. induction a as [|x a IH]; intros [|y b] [|z c]; cbn [strcmp];
    try lia.
  - destruct (Ascii.eqb_spec y z) as [->|]; lia.
  - intros H. pose proof (byte_of_nonneg x). lia.
  - intros _ H. pose proof (byte_of_nonneg y). lia.
  - destruct (Ascii.eqb_spec x y); destruct (Ascii.eqb_spec y z);
      destruct (Ascii.eqb_spec x z); subst;
      try contradiction; try lia; apply IH.
Qed.

Section SortedSearch.

Context (key : string) (base : list string).

(** The entries are in strictly increasing [strcmp] order. *)
Hypothesis base_sorted :
  forall (i : nat) (a b : string),
    nth_error base i = Some a -> nth_error base (S i) = Some b ->
    mystrcmp a b < 0.

Lemma base_increasing (i j : nat) (a b : string) :
  (i < j)%nat -> nth_error base i = Some a -> nth_error base j = Some b ->
  mystrcmp a b < 0.
Proof.
  intros Hij Ha. revert b. induction Hij as [|j Hij IH]; intros b Hb.
  - now apply (base_sorted i).
  - assert (Hlt : (j < List.length base)%nat).
    { assert (S j < List.length base)%nat by (apply nth_error_Some; congruence).
      lia. }
    destruct (nth_error base j) as [c|] eqn:Hc;
      [|apply nth_error_None in Hc; lia].
    unfold mystrcmp in *. eapply strcmp_trans; [now apply IH|].
    now apply (base_sorted j).
Qed.

(** The loop keeps the position of the key between [l] and [u]. *)
Lemma bsearch_loop_finds (pos iter l u : nat) :
  nth_error base pos = Some key ->
  (l <= pos < u)%nat -> (u <= List.length base)%nat -> (u - l <= iter)%nat ->
  bsearch_loop mystrcmp key base iter l u = Found pos.
Proof.
  intros Hpos. revert l u.
  induction iter as [|iter IH]; intros l u Hlu Hu Hit; cbn [bsearch_loop].
  - lia.
  - destruct (Nat.ltb_spec l u); [|lia].
    set (idx := ((l + u) / 2)%nat).
    assert (Hd : (l <= idx < u)%nat).
    { subst idx.
      split; [apply Nat.div_le_lower_bound|apply Nat.Div0.div_lt_upper_bound];
        lia. }
    destruct (nth_error base idx) as [p|] eqn:Hp;
      [|apply nth_error_None in Hp; lia].
    destruct (Nat.lt_trichotomy idx pos) as [Hlt|[Heq|Hgt]].
    + pose proof (base_increasing _ _ _ _ Hlt Hp Hpos) as Hc.
      apply strcmp_swap in Hc. fold (mystrcmp key p) in Hc.
      destruct (Z.ltb_spec (mystrcmp key p) 0); [lia|].
      destruct (Z.gtb_spec (mystrcmp key p) 0); [apply IH; lia|lia].
    + assert (p = key) as -> by congruence.
      unfold mystrcmp. rewrite strcmp_refl. cbn. now subst.
    + pose proof (base_increasing _ _ _ _ Hgt Hpos Hp) as Hc.
      destruct (Z.ltb_spec (mystrcmp key p) 0); [apply IH; lia|lia].
Qed.

(** X7: on an array whose entries are in strictly increasing [strcmp]
    order, the binary search with [mystrcmp] finds every entry, at its own
    index. *)
Theorem bsearch_sorted_finds (pos : nat) :
  nth_error base pos = Some key ->
  bsearch key base (List.length base) mystrcmp = Found pos.
Proof.
  intros Hpos. apply bsearch_loop_finds; [exact Hpos| |lia|lia].
  split; [lia|]. apply nth_error_Some. congruence.
Qed.

End SortedSearch.

Lemma bsearch_sorted_finds_witness :
  bsearch "b" ["a"; "b"; "ba"; "c"] 4 mystrcmp = Found 1%nat.
Proof.
  apply (bsearch_sorted_finds "b" ["a"; "b"; "ba"; "c"]); [|reflexivity].
  intros [|[|[|[|i]]]] a b Ha Hb; cbn in Ha, Hb;
    try discriminate; injection Ha as <-; injection Hb as <-;
    reflexivity.
Defined.

(** ** More on the supervisor *)

(** *** Rejected command lines *)

(** X8: with fewer than two arguments the supervisor prints the usage
    message to standard error and exits with status 1; it starts
    nothing. *)
Theorem usage_error (argv : list string) (w : World) :
  (List.length argv < 3)%nat ->
  run argv w
  = ([EFprintfStderr ("Usage: alarm timeout-in-seconds command ..." ++ nl)],
     Exit 1).
Proof.
  intros H. unfold run, main. apply Nat.ltb_lt in H. now rewrite H.
Qed.

Lemma usage_error_witness :
  run ["alarm"; "5"] world_parallel
  = ([EFprintfStderr ("Usage: alarm timeout-in-seconds command ..." ++ nl)],
     Exit 1).
Proof. apply (usage_error ["alarm"; "5"] world_parallel). cbn. lia. Defined.

Lemma atoi_no_number (s : string) : has_number s = false -> atoi s = 0.
Proof.
  unfold has_number, atoi, strtol. intros Hnum.
  assert (Hd : forall t, starts_with_digit t = false -> digits t 0 = 0).
  { intros [|a t]; simpl; [reflexivity|]. now intros ->. }
  destruct (skip_spaces s) as [|a t]; [reflexivity|].
  destruct (Ascii.eqb_spec a "-") as [->|Hm].
  { rewrite (Hd _ Hnum). reflexivity. }
  destruct (Ascii.eqb_spec a "+") as [->|Hp].
  { rewrite (Hd _ Hnum). reflexivity. }
  assert (H0 : digits (String a t) 0 = 0) by (apply Hd; exact Hnum).
  destruct a as [[] [] [] [] [] [] [] []]; try (rewrite H0; reflexivity);
    congruence.
Qed.

(** X9: when the first argument does not start with a number, or is a
    number less than 1, the supervisor prints "Timeout must be positive,
    was" with the argument as given, and exits with status 1; it starts
    nothing. *)
Theorem bad_timeout (argv : list string) (w : World) :
  (3 <= List.length argv)%nat ->
  has_number (nth 1 argv "") = false \/ atoi (nth 1 argv "") < 1 ->
  run argv w
  = ([EFprintfStderr ("Timeout must be positive, was " ++ nth 1 argv "" ++ nl)],
     Exit 1).
Proof.
  intros Hlen Hbad.
  assert (Hlt : atoi (nth 1 argv "") < 1).
  { destruct Hbad as [H|H]; [|exact H]. rewrite (atoi_no_number _ H). lia. }
  unfold run, main.
  apply Nat.ltb_ge in Hlen. apply Z.ltb_lt in Hlt. now rewrite Hlen, Hlt.
Qed.

Lemma bad_timeout_witness :
  run ["alarm"; "soon"; "wine"; "ntdll_test.exe"; "generated.c"] world_parallel
  = ([EFprintfStderr ("Timeout must be positive, was " ++ "soon" ++ nl)],
     Exit 1).
Proof.
  apply (bad_timeout
           ["alarm"; "soon"; "wine"; "ntdll_test.exe"; "generated.c"]
           world_parallel); [cbn; lia|left; reflexivity].
Defined.

(** *** Outside "make -jN" *)

(** X10: when MAKEFLAGS does not announce a job server, a run opens,
    locks, closes and removes no file, writes nothing with [write], and
    leaves the child's output where it is, whatever the whitelist
    says. *)
Theorem serial_run_touches_no_file (argv : list string) (w : World) :
  isParallelRun (MAKEFLAGS w) = false ->
  Forall serial_event (trace argv w).
Proof.
  intros Hp. apply trace_Forall.
  - intros text. exact I.
  - rewrite setup_trace, Hp, app_nil_r.
    destruct (notWhitelisted (invocation argv)); [|constructor].
    eapply Forall_impl; [|apply getVideoMode_events].
    now intros e [-> | ->].
  - unfold launch, logfd_of. rewrite Hp. repeat constructor.
  - exact I.
  - exact I.
  - unfold replayed, logfd_of. rewrite Hp. constructor.
  - unfold released, lockfd_of. rewrite Hp. constructor.
  - intros waitresult. apply verdict_Forall; [intros; exact I|].
    intros _. repeat split.
Qed.

Lemma serial_run_touches_no_file_witness :
  Forall serial_event
    (trace ["alarm"; "5"; "runtest"; "wine"; "foo_test.exe"; "bar.c"]
       (world_serial (Reaped 0) None)).
Proof.
  apply (serial_run_touches_no_file
           ["alarm"; "5"; "runtest"; "wine"; "foo_test.exe"; "bar.c"]
           (world_serial (Reaped 0) None)).
  reflexivity.
Defined.

(** *** Tests on the whitelist *)

(** X11: for a test that the supervisor finds on the whitelist, a run has
    no probe, does not open "alarm.lock", and locks nothing but
    "log.lock": such tests run side by side, only their replays are
    serialised. *)
Theorem whitelisted_run_is_unlocked (argv : list string) (w : World)
    (id : string) :
  getTestID (invocation argv) = Some id ->
  inWhitelist id = true ->
  Forall (no_probe_no_exec_lock w) (trace argv w).
Proof.
  intros Hid Hin.
  assert (Hnw : notWhitelisted (invocation argv) = false).
  { unfold notWhitelisted. now rewrite Hid, Hin. }
  apply trace_Forall.
  - intros text. exact I.
  - rewrite setup_trace, Hnw. cbn [app].
    destruct (isParallelRun (MAKEFLAGS w)); repeat constructor.
    apply logfilename_not_lock.
  - repeat constructor.
  - exact I.
  - exact I.
  - unfold replayed.
    destruct (negb (logfd_of argv w =? -1) && negb (log_offset w =? 0));
      [|constructor].
    unfold log_locked, log_unlocked, framed_log. segments.
    + constructor; [discriminate|].
      destruct (fd_loglock w =? -1); repeat constructor.
    + constructor; [exact I|]. segments.
      * apply Forall_forall. now intros e (c & <- & _)%in_map_iff.
      * repeat constructor.
    + destruct (fd_loglock w =? -1); repeat constructor.
  - unfold released, lockfd_of. rewrite Hnw, andb_false_r. constructor.
  - intros waitresult. apply verdict_Forall; [intros; exact I|].
    rewrite Hnw. discriminate.
Qed.

Lemma whitelisted_run_is_unlocked_witness :
  Forall (no_probe_no_exec_lock world_parallel)
    (trace ["alarm"; "5"; "runtest"; "wine"; "ntdll_test.exe"; "generated.c"]
       world_parallel).
Proof.
  apply (whitelisted_run_is_unlocked
           ["alarm"; "5"; "runtest"; "wine"; "ntdll_test.exe"; "generated.c"]
           world_parallel "ntdll:generated"); reflexivity.
Defined.

(** *** The exit status *)


(** The exit status of a run that does not reach the fork, of one in
    which the alarm goes off, and of one that the alarm leaves alone. *)
Lemma outcome_not_launched (argv : list string) (w : World) :
  launches argv = false -> outcome argv w = Exit 1.
Proof.
  intros Hl. unfold outcome.
  now destruct (run_not_launched argv w Hl) as [text ->].
Qed.

Lemma outcome_deadline (argv : list string) (w : World) :
  launches argv = true -> wait_end w = Deadline -> outcome argv w = Exit 1.
Proof. intros Hl Hw. unfold outcome. now rewrite (run_deadline _ _ Hl Hw). Qed.

Lemma outcome_late (argv : list string) (w : World) (waitresult : Z)
    (k : nat) :
  launches argv = true ->
  wait_end w = Reaped waitresult \/
  (wait_end w = WaitError /\ waitresult = 0) ->
  alarm_late w = Some k ->
  outcome argv w = Exit 1.
Proof.
  intros Hl Hw Ha. unfold outcome. now rewrite (run_late _ _ _ _ Hl Hw Ha).
Qed.

Lemma outcome_finished (argv : list string) (w : World) (waitresult : Z) :
  launches argv = true ->
  wait_end w = Reaped waitresult \/
  (wait_end w = WaitError /\ waitresult = 0) ->
  alarm_late w = None ->
  outcome argv w
  = match snd (verdict argv w waitresult) with
    | Ret status => Exit status
    | Stop o => o
    end.
Proof.
  intros Hl Hw Ha. unfold outcome. now rewrite (run_finished _ _ _ Hl Hw Ha).
Qed.

Lemma wait_end_cases (w : World) :
  wait_end w = Deadline \/
  exists waitresult,
    wait_end w = Reaped waitresult \/
    (wait_end w = WaitError /\ waitresult = 0).
Proof.
  destruct (wait_end w) as [status| |]; [right|right|left]; eauto.
Qed.

Lemma verdict_ext (argv : list string) (w w' : World) (waitresult : Z) :
  xrandr_before w = xrandr_before w' ->
  xrandr_after w = xrandr_after w' ->
  verdict argv w waitresult = verdict argv w' waitresult.
Proof.
  intros Hb Ha. unfold verdict, verify_video_mode. now rewrite Hb, Ha.
Qed.


(** X13: the exit status is decided by the command line, the two
    answers of xrandr, the way the wait ends and whether the alarm, which
    stays armed, goes off before the process ends.  Given these it does
    not depend on MAKEFLAGS, on whether the lock files and the capture
    file could be opened, on the child's pid, on how often the wait was
    interrupted, on the captured output, or on the result of
    "xrandr -s 0". *)
Theorem outcome_ignores_files (argv : list string) (w w' : World) :
  same_inputs w w' -> outcome argv w = outcome argv w'.
Proof.
  intros (Hb & Ha & He & Hlate).
  destruct (launches argv) eqn:Hl.
  2:{ now rewrite !outcome_not_launched. }
  destruct (wait_end_cases w) as [Hd|[st Hw]].
  { rewrite !outcome_deadline; congruence. }
  assert (Hw' : wait_end w' = Reaped st \/ (wait_end w' = WaitError /\ st = 0))
    by now rewrite <- He.
  destruct (alarm_late w) as [k|] eqn:Hk.
  - destruct (alarm_late w') as [k'|] eqn:Hk'.
    + now rewrite (outcome_late argv w st k), (outcome_late argv w' st k').
    + destruct Hlate as [_ Hlate]. now specialize (Hlate eq_refl).
  - assert (Hk' : alarm_late w' = None) by now apply Hlate.
    rewrite (outcome_finished _ _ _ Hl Hw Hk).
    rewrite (outcome_finished _ _ _ Hl Hw' Hk').
    now rewrite (verdict_ext argv w w' st Hb Ha).
Qed.

Lemma outcome_ignores_files_witness :
  outcome ["alarm"; "5"; "runtest"; "wine"; "foo_test.exe"; "bar.c"]
    world_parallel
  = outcome ["alarm"; "5"; "runtest"; "wine"; "foo_test.exe"; "bar.c"]
      world_parallel_no_files.
Proof.
  apply (outcome_ignores_files
           ["alarm"; "5"; "runtest"; "wine"; "foo_test.exe"; "bar.c"]
           world_parallel world_parallel_no_files).
  repeat split.
Defined.

(** X14: when [wait] fails with an error other than [EINTR], the wait
    status stays 0 and the run goes on as after a child that exited with
    code 0: when the alarm does not go off before the process ends, the
    supervisor exits with status 0, unless the video mode changed under
    a test that is not whitelisted; when the alarm goes off first, it
    exits with status 1. *)
Theorem wait_error_reports_success (argv : list string) (w : World) :
  launches argv = true ->
  wait_end w = WaitError ->
  (alarm_late w = None ->
   notWhitelisted (invocation argv) = false \/
   probe_value (xrandr_after w) = probe_value (xrandr_before w) ->
   outcome argv w = Exit 0) /\
  (alarm_late w <> None -> outcome argv w = Exit 1).
Proof.
  intros Hl Hw.
  assert (Hw0 : wait_end w = Reaped 0 \/ (wait_end w = WaitError /\ 0 = 0))
    by now right.
  split.
  - intros Ha Hcase. rewrite (outcome_finished _ _ 0 Hl Hw0 Ha).
    destruct (notWhitelisted (invocation argv)) eqn:Hnw.
    + destruct Hcase as [|Heq]; [discriminate|].
      now rewrite (verdict_same_mode _ _ 0 eq_refl Hnw Heq).
    + now rewrite (verdict_whitelisted _ _ 0 eq_refl Hnw).
  - intros Ha. destruct (alarm_late w) as [k|] eqn:Hk; [|contradiction].
    now apply (outcome_late argv w 0 k).
Qed.

Lemma wait_error_reports_success_witness :
  outcome ["alarm"; "5"; "runtest"; "wine"; "ntdll_test.exe"; "generated.c"]
    (world_serial WaitError None) = Exit 0.
Proof.
  apply (proj1 (wait_error_reports_success
           ["alarm"; "5"; "runtest"; "wine"; "ntdll_test.exe"; "generated.c"]
           (world_serial WaitError None) eq_refl eq_refl));
    [reflexivity|left; reflexivity].
Defined.

(** *** The execution lock *)

Lemma length_append_string (s t : string) :
  String.length (s ++ t) = (String.length s + String.length t)%nat.
Proof.
  induction s as [|a s IH]; [reflexivity|].
  cbn [append String.length]. now rewrite IH.
Qed.

Lemma probe_starts (xrandr : option string) :
  exists tail, fst (getVideoMode xrandr) = EPopen cmd_xrandr_query :: tail.
Proof. unfold getVideoMode. rewrite bind_emit. cbn [fst]. eauto. Qed.

(** X15: for a test that is not whitelisted, under "make -jN", when
    "alarm.lock" can be opened, the child is reaped and the alarm does
    not go off before the supervisor ends, the whole run is: the first
    probe, the opening and the locking of "alarm.lock", the opening of
    the capture file, the fork, the arming of the alarm, the waits, the
    replay, the unlocking of "alarm.lock", and then the end of main.
    From the locking to the unlocking there is no probe and no other
    [flock] on that descriptor, and when the child exited normally the
    end of main starts with the second probe. *)
Theorem execution_lock_held (argv : list string) (w : World) (status : Z) :
  launches argv = true ->
  isParallelRun (MAKEFLAGS w) = true ->
  notWhitelisted (invocation argv) = true ->
  fd_lock w <> -1 -> fd_lock w <> fd_loglock w ->
  wait_end w = Reaped status ->
  alarm_late w = None ->
  exists replay post,
    trace argv w
    = (fst (getVideoMode (xrandr_before w)) ++
       EOpen "alarm.lock" 384 :: EFlock (fd_lock w) LOCK_EX ::
       EOpen (testid_of argv w ++ ".tmplog")%string 432 ::
       EFork (if fd_log w >? -1 then Some (fd_log w) else None)
             (invocation argv) ::
       ESignal 14 :: EAlarm (atoi (nth 1 argv "")) ::
       repeat EWait (S (wait_interrupts w)) ++
       replay ++ EFlock (fd_lock w) LOCK_UN :: post)%list /\
    replay = replayed w (fd_log w) (testid_of argv w) /\
    Forall (fun e => is_probe e = false /\
                     forall op, e <> EFlock (fd_lock w) op) replay /\
    (WIFEXITED status = true ->
     exists tail, post = EPopen "xrandr -q | grep -n '\*'" :: tail).
Proof.
  intros Hl Hp Hnw Hfd Hne Hw Ha.
  exists (replayed w (fd_log w) (testid_of argv w)),
         (fst (verdict argv w status)).
  split; [|split; [reflexivity|split]].
  - unfold trace. rewrite (run_finished _ _ status Hl (or_introl Hw) Ha).
    cbn [fst]. rewrite setup_trace, Hp, Hnw.
    unfold launch, released, lockfd_of, logfd_of. rewrite Hp, Hnw.
    cbn [andb]. apply Z.eqb_neq in Hfd. rewrite Hfd.
    repeat (rewrite <- ?app_assoc; cbn [app]). reflexivity.
  - unfold replayed.
    destruct (negb (fd_log w =? -1) && negb (log_offset w =? 0));
      [|constructor].
    assert (Hll : forall op,
              Forall (fun e => is_probe e = false /\
                               forall op', e <> EFlock (fd_lock w) op')
                (if fd_loglock w =? -1 then []
                 else [EFlock (fd_loglock w) op])).
    { intros op. destruct (fd_loglock w =? -1); repeat constructor.
      intros op' [= H _]. now apply Hne. }
    unfold log_locked, log_unlocked, framed_log. segments.
    + constructor; [now split|]. apply Hll.
    + constructor; [now split|]. segments.
      * apply Forall_forall. intros e (c & <- & _)%in_map_iff. now split.
      * repeat constructor; discriminate.
    + apply Hll.
  - intros Hst.
    destruct (Z.eq_dec (probe_value (xrandr_after w))
                (probe_value (xrandr_before w))) as [Heq|Hneq].
    + rewrite (verdict_same_mode _ _ _ Hst Hnw Heq). cbn [fst].
      apply probe_starts.
    + rewrite (verdict_mode_changed _ _ _ Hst Hnw Hneq). cbn [fst].
      destruct (probe_starts (xrandr_after w)) as [tail ->].
      cbn [app]. eauto.
Qed.

Lemma execution_lock_held_witness :
  exists replay post,
    trace ["alarm"; "5"; "runtest"; "wine"; "foo_test.exe"; "bar.c"]
      world_parallel
    = (fst (getVideoMode (xrandr_before world_parallel)) ++
       EOpen "alarm.lock" 384 :: EFlock 3 LOCK_EX ::
       EOpen ("foo:bar" ++ ".tmplog")%string 432 ::
       EFork (Some 4) ["runtest"; "wine"; "foo_test.exe"; "bar.c"] ::
       ESignal 14 :: EAlarm 5 ::
       repeat EWait 1 ++
       replay ++ EFlock 3 LOCK_UN :: post)%list /\
    replay = replayed world_parallel 4 "foo:bar" /\
    Forall (fun e => is_probe e = false /\
                     forall op, e <> EFlock 3 op) replay /\
    (WIFEXITED (W_EXITCODE 7 0) = true ->
     exists tail, post = EPopen "xrandr -q | grep -n '\*'" :: tail).
Proof.
  apply (execution_lock_held
           ["alarm"; "5"; "runtest"; "wine"; "foo_test.exe"; "bar.c"]
           world_parallel (W_EXITCODE 7 0));
    try reflexivity; discriminate.
Defined.

(** *** The replay *)

(** X16: when the captured output is replayed, "log.lock" can be opened
    and the alarm does not go off before the supervisor ends, the framed
    block (the line "alarm: runtest <testid> log:", the chunks read, the
    closing and the removal of the capture file, the line
    "alarm: log end") is written between the locking and the unlocking
    of "log.lock", with nothing else in between. *)
Theorem replay_under_log_lock (argv : list string) (w : World) :
  launches argv = true ->
  isParallelRun (MAKEFLAGS w) = true ->
  wait_end w <> Deadline ->
  alarm_late w = None ->
  fd_log w <> -1 -> log_offset w <> 0 -> fd_loglock w <> -1 ->
  exists pre post,
    trace argv w
    = (pre ++
       EOpen "log.lock" 384 :: EFlock (fd_loglock w) LOCK_EX ::
       EWrite 1 ("alarm: runtest " ++ testid_of argv w ++ " log:" ++ nl)%string ::
       map (EWrite 1) (chunks_read (log_chunks w)) ++
       EClose (fd_log w) ::
       ERemove (testid_of argv w ++ ".tmplog")%string ::
       EWrite 1 ("alarm: log end" ++ nl)%string ::
       EFlock (fd_loglock w) LOCK_UN :: post)%list.
Proof.
  intros Hl Hp Hw Ha Hfd Hoff Hll.
  assert (Hreplay :
    replayed w (logfd_of argv w) (testid_of argv w)
    = (EOpen "log.lock" mode_0600 :: EFlock (fd_loglock w) LOCK_EX ::
       framed_log (testid_of argv w) (fd_log w) (log_chunks w) ++
       [EFlock (fd_loglock w) LOCK_UN])%list).
  { unfold replayed, logfd_of, log_locked, log_unlocked.
    rewrite Hp. apply Z.eqb_neq in Hfd, Hoff, Hll.
    now rewrite Hfd, Hoff, Hll. }
  unfold trace.
  destruct (run_cases argv w Hl)
    as [[Hd _]|(waitresult & _ & [[_ ->]|(k & Hk & _)])];
    [contradiction| |congruence].
  cbn [fst]. rewrite Hreplay. unfold framed_log.
  exists (setup argv w ++ launch argv w ++
          repeat EWait (S (wait_interrupts w)))%list.
  eexists. repeat (rewrite <- ?app_assoc; cbn [app]). reflexivity.
Qed.

Lemma replay_under_log_lock_witness :
  exists pre post,
    trace ["alarm"; "5"; "runtest"; "wine"; "ntdll_test.exe"; "generated.c"]
      world_parallel
    = (pre ++
       EOpen "log.lock" 384 :: EFlock 5 LOCK_EX ::
       EWrite 1 ("alarm: runtest " ++ "ntdll:generated" ++ " log:" ++ nl)%string ::
       map (EWrite 1) (chunks_read ["hello"; ""]) ++
       EClose 4 ::
       ERemove ("ntdll:generated" ++ ".tmplog")%string ::
       EWrite 1 ("alarm: log end" ++ nl)%string ::
       EFlock 5 LOCK_UN :: post)%list.
Proof.
  apply (replay_under_log_lock
           ["alarm"; "5"; "runtest"; "wine"; "ntdll_test.exe"; "generated.c"]
           world_parallel); try reflexivity; discriminate.
Defined.

(** X17: when the capture file cannot be opened, or its offset is still
    0 after the wait (the child wrote nothing), nothing is replayed:
    the run has no [write], [close] or [remove] and does not open
    "log.lock"; the capture file, if it was created, stays. *)
Theorem no_output_no_replay (argv : list string) (w : World) :
  fd_log w = -1 \/ log_offset w = 0 ->
  Forall no_replay_event (trace argv w).
Proof.
  intros Hcase. apply trace_Forall.
  - intros text. exact I.
  - rewrite setup_trace. segments.
    + destruct (notWhitelisted (invocation argv)); [|constructor].
      eapply Forall_impl; [|apply getVideoMode_events].
      now intros e [-> | ->].
    + destruct (isParallelRun (MAKEFLAGS w)); [|constructor]. segments.
      * destruct (notWhitelisted (invocation argv)); [|constructor].
        constructor; [discriminate|].
        destruct (fd_lock w =? -1); repeat constructor.
      * repeat constructor. apply logfilename_not_loglock.
  - repeat constructor.
  - exact I.
  - exact I.
  - unfold replayed, logfd_of.
    destruct Hcase as [-> | ->].
    + destruct (isParallelRun (MAKEFLAGS w)); constructor.
    + rewrite andb_false_r. constructor.
  - unfold released. destruct (lockfd_of argv w =? -1); repeat constructor.
  - intros waitresult. apply verdict_Forall; [intros; exact I|].
    intros _. repeat split.
Qed.

Lemma no_output_no_replay_witness :
  Forall no_replay_event
    (trace ["alarm"; "5"; "runtest"; "wine"; "foo_test.exe"; "bar.c"]
       world_parallel_no_files).
Proof.
  apply (no_output_no_replay
           ["alarm"; "5"; "runtest"; "wine"; "foo_test.exe"; "bar.c"]
           world_parallel_no_files).
  left. reflexivity.
Defined.

(** *** The command of the child *)

(** X18: the command handed to the child never has more than
    [MAXARGS - 1] tokens, so that [newargv] has room for the final null
    pointer; it is the command line without its first two tokens when
    that has at most [MAXARGS - 1] tokens, and its first [MAXARGS - 1]
    tokens otherwise. *)
Theorem invocation_bounds (argv : list string) :
  (List.length (invocation argv) < MAXARGS)%nat /\
  ((List.length argv <= MAXARGS + 1)%nat -> invocation argv = skipn 2 argv) /\
  ((MAXARGS + 1 < List.length argv)%nat ->
   List.length (invocation argv) = (MAXARGS - 1)%nat /\
   exists dropped, dropped <> [] /\
     skipn 2 argv = (invocation argv ++ dropped)%list).
Proof.
  unfold invocation. split; [|split].
  - pose proof (firstn_le_length (MAXARGS - 1) (skipn 2 argv)).
    unfold MAXARGS in *. lia.
  - intros H. apply firstn_all2. rewrite length_skipn.
    unfold MAXARGS in *. lia.
  - intros H. split.
    + apply firstn_length_le. rewrite length_skipn. unfold MAXARGS in *. lia.
    + exists (skipn (MAXARGS - 1) (skipn 2 argv)). split.
      * intros E. apply (f_equal (@List.length string)) in E.
        rewrite !length_skipn in E. unfold MAXARGS in *. cbn in E. lia.
      * symmetry. apply firstn_skipn.
Qed.

(** X19: the identity is shorter than the two tokens it is read from,
    the two that follow the first token with "wine" in it (looked for
    from the second token on), taken together: it has one byte for each
    byte of the module token before its last '_', one for ':' and one
    for each byte of the file token before its last '.'.  So when these
    two tokens have at most [TESTID_SIZE] = 64 bytes in all, the
    identity and its final NUL fit [testid]. *)
Theorem getTestID_length (cmd : string) (pre : list string)
    (marker module file : string) (rest : list string) (id : string) :
  Forall (fun a => strstr a "wine" = None) pre ->
  strstr marker "wine" <> None ->
  getTestID (cmd :: pre ++ marker :: module :: file :: rest) = Some id ->
  (exists module_end file_end,
     strrchr module "_" = Some module_end /\
     strrchr file "." = Some file_end /\
     String.length id = (module_end + 1 + file_end)%nat) /\
  (String.length id < String.length module + String.length file)%nat /\
  ((String.length module + String.length file <= 64)%nat ->
   (String.length id + 1 <= TESTID_SIZE)%nat).
Proof.
  intros Hpre Hmarker. unfold getTestID.
  cbn [skipn]. rewrite (scan_wine_found _ _ _ _ Hpre Hmarker).
  set (n := List.length pre).
  destruct (_ <=? _)%nat; [discriminate|].
  replace (1 + n + 1)%nat with (S (n + 1)) by lia.
  replace (1 + n + 2)%nat with (S (n + 2)) by lia.
  cbn [nth_error].
  rewrite !nth_error_app2 by (subst n; lia).
  replace (n + 1 - List.length pre)%nat with 1%nat by (subst n; lia).
  replace (n + 2 - List.length pre)%nat with 2%nat by (subst n; lia).
  cbn [nth_error].
  destruct (strrchr module "_") as [me|] eqn:Hme; [|discriminate].
  destruct (strrchr file ".") as [fe|] eqn:Hfe; [|discriminate].
  intros [= <-].
  destruct (strrchr_Some _ _ _ Hme) as (m & suffix & Hm & Hlm & _ & ->).
  destruct (strrchr_Some _ _ _ Hfe) as (f & ext & Hf & Hlf & _ & ->).
  assert (Hlen : String.length (m ++ ":" ++ f) = (me + 1 + fe)%nat).
  { rewrite !length_append_string. cbn [String.length]. lia. }
  assert (Hlt : (String.length (m ++ ":" ++ f)
                 < String.length module + String.length file)%nat).
  { rewrite Hlen, Hm, Hf, !length_append_string. cbn [String.length]. lia. }
  split; [|split].
  - exists me, fe. auto.
  - exact Hlt.
  - unfold TESTID_SIZE. intros H.
    change (String.length (m ++ ":" ++ f) + 1 <= 64)%nat. lia.
Qed.

Lemma getTestID_length_witness :
  (exists module_end file_end,
     strrchr "ntdll_test.exe" "_" = Some module_end /\
     strrchr "generated.c" "." = Some file_end /\
     String.length "ntdll:generated" = (module_end + 1 + file_end)%nat) /\
  (String.length "ntdll:generated"
   < String.length "ntdll_test.exe" + String.length "generated.c")%nat /\
  ((String.length "ntdll_test.exe" + String.length "generated.c" <= 64)%nat ->
   (String.length "ntdll:generated" + 1 <= TESTID_SIZE)%nat).
Proof.
  apply (getTestID_length "runtest" ["-q"] "wine"
           "ntdll_test.exe" "generated.c" [] "ntdll:generated");
    [repeat constructor|discriminate|reflexivity].
Defined.

(** *** The fork *)

(** ** Numbers read and printed *)

Lemma digits_no_digit (s : string) (acc : Z) :
  starts_with_digit s = false -> digits s acc = acc.
Proof. destruct s as [|a s]; cbn; [reflexivity|]. now intros ->. Qed.

Lemma digits_decimal (d : Decimal.uint) (rest : string) (acc : Z) :
  starts_with_digit rest = false ->
  digits (NilEmpty.string_of_uint d ++ rest) acc = decimal_value d acc.
Proof.
  intros Hrest. revert acc.
  induction d as [|d IH|d IH|d IH|d IH|d IH|d IH|d IH|d IH|d IH|d IH];
    intros acc; cbn [NilEmpty.string_of_uint append decimal_value];
    [now apply digits_no_digit|..];
    cbn [digits]; apply IH.
Qed.

Lemma decimal_value_pos (d : Decimal.uint) (p : positive) :
  decimal_value d (Z.pos p) = Z.pos (Pos.of_uint_acc d p).
Proof.
  revert p.
  induction d as [|d IH|d IH|d IH|d IH|d IH|d IH|d IH|d IH|d IH|d IH];
    intros p; cbn [decimal_value Pos.of_uint_acc]; [reflexivity|..];
    rewrite <- IH; f_equal; lia.
Qed.

Lemma decimal_value_zero (d : Decimal.uint) :
  decimal_value d 0 = Z.of_N (Pos.of_uint d).
Proof.
  induction d as [|d IH|d IH|d IH|d IH|d IH|d IH|d IH|d IH|d IH|d IH];
    cbn [decimal_value Pos.of_uint]; [reflexivity|exact IH|..];
    cbn [Z.mul Z.add Z.of_N]; apply decimal_value_pos.
Qed.

Lemma to_int_small (z : Z) :
  - 2147483648 <= z < 2147483648 -> to_int z = z.
Proof. intros H. unfold to_int. rewrite Z.mod_small; lia. Qed.

Lemma strtol_digit (c : ascii) (s : string) :
  isdigit c = true ->
  strtol (String c s) = Z.max LONG_MIN (Z.min LONG_MAX (digits (String c s) 0)).
Proof.
  destruct c as [[] [] [] [] [] [] [] []]; intros H;
    solve [discriminate H | reflexivity].
Qed.

(** [atoi] reads back what [%d] prints, whatever follows the digits. *)
Lemma atoi_fmt_d (n : Z) (rest : string) :
  0 <= n < 2147483648 ->
  starts_with_digit rest = false ->
  atoi (fmt_d n ++ rest) = n.
Proof.
  intros Hn Hrest. unfold atoi, fmt_d.
  assert (Hv : exists c s,
            NilZero.string_of_int (Z.to_int n) ++ rest = String c s /\
            isdigit c = true /\ digits (String c s) 0 = n).
  { destruct n as [|p|p]; [| |lia].
    - exists "0"%char, rest. repeat split. cbn. now apply digits_no_digit.
    - cbn [Z.to_int NilZero.string_of_int].
      pose proof (DecimalPos.Unsigned.to_uint_nonnil p) as Hnil.
      pose proof (DecimalPos.Unsigned.of_to p) as Hof.
      assert (Hd : digits (NilEmpty.string_of_uint (Pos.to_uint p) ++ rest) 0
                   = Z.pos p).
      { rewrite (digits_decimal _ _ _ Hrest), decimal_value_zero, Hof.
        reflexivity. }
      unfold NilZero.string_of_uint.
      destruct (Pos.to_uint p) as [|d|d|d|d|d|d|d|d|d|d];
        [contradiction|..];
        cbn [NilEmpty.string_of_uint append] in *;
        eexists _, _; (split; [reflexivity|split; [reflexivity|exact Hd]]). }
  destruct Hv as (c & s & -> & Hc & Hd).
  rewrite (strtol_digit _ _ Hc), Hd.
  unfold LONG_MIN, LONG_MAX. rewrite to_int_small; lia.
Qed.


(** X20: when the first line that [fgets] reads from xrandr's pipeline
    starts with the line number [n] that [grep -n] printed, followed by
    something that is no digit, the probe returns [n - 2]. *)
Theorem getVideoMode_line_number (out rest : string) (n : Z) :
  0 <= n < 2147483648 ->
  starts_with_digit rest = false ->
  fgets 256 out = Some (fmt_d n ++ rest) ->
  snd (getVideoMode (Some out)) = Ret (n - 2).
Proof.
  intros Hn Hrest Hline. unfold getVideoMode.
  rewrite bind_emit. cbn [snd]. rewrite Hline, bind_emit. cbn [snd ret].
  rewrite (atoi_fmt_d _ _ Hn Hrest), to_int_small by lia. reflexivity.
Qed.

Lemma getVideoMode_line_number_witness :
  snd (getVideoMode
         (Some ("3:   1024x768       60.0*" ++ nl ++ "7:   640x480" ++ nl)))
  = Ret (3 - 2).
Proof.
  apply (getVideoMode_line_number
           ("3:   1024x768       60.0*" ++ nl ++ "7:   640x480" ++ nl)
           (":   1024x768       60.0*" ++ nl) 3);
    [lia|reflexivity|reflexivity].
Defined.

(** X21: when the first argument is the decimal [n], at least 1, with
    or without something after its digits, the alarm is armed for [n]
    seconds right after the handler is installed. *)
Theorem alarm_armed_for_timeout (argv : list string) (w : World) (n : Z)
    (rest : string) :
  launches argv = true ->
  1 <= n < 2147483648 ->
  starts_with_digit rest = false ->
  nth 1 argv "" = fmt_d n ++ rest ->
  exists pre post,
    trace argv w = (pre ++ ESignal SIGALRM :: EAlarm n :: post)%list.
Proof.
  intros Hl Hn Hrest Harg.
  destruct (trace_launched argv w Hl) as [tail ->].
  unfold launch. rewrite Harg, atoi_fmt_d by (lia || assumption).
  eexists (setup argv w ++ [_])%list, tail.
  now rewrite <- app_assoc.
Qed.

Lemma alarm_armed_for_timeout_witness :
  exists pre post,
    trace ["alarm"; "300s"; "runtest"; "wine"; "ntdll_test.exe"; "generated.c"]
      world_parallel
    = (pre ++ ESignal SIGALRM :: EAlarm 300 :: post)%list.
Proof.
  apply (alarm_armed_for_timeout
           ["alarm"; "300s"; "runtest"; "wine"; "ntdll_test.exe"; "generated.c"]
           world_parallel 300 "s");
    [reflexivity|lia|reflexivity|reflexivity].
Defined.
